(** * ListMmf Python tooling: a shallow embedding and its properties

    The three scripts of the repository are embedded one module each:

    - [Reader]  : scripts/listmmf_reader.py
    - [Scan]    : scripts/scan_listmmf_stats.py
    - [Parquet] : scripts/mmf_to_parquet.py

    Python integers are unbounded and become [Z]; NumPy's fixed-width
    integers become [Z] with the wrap-around written out ([Int.wrap]);
    file contents are [list byte]; dictionaries whose insertion order is
    observable are association lists ([Dict]), the scanner's [Counter]s are
    [gmap Z Z]; raised exceptions are values of [exn] carried by [result]. *)

From Stdlib Require Import ZArith Lia List String Ascii DecimalString.
From Stdlib Require Import Strings.Byte.
From stdpp Require Import base gmap list strings.

Open Scope Z_scope.

(** ** Fixed-width integers *)

Module Int.

(** Two's complement reduction of [z] to a signed integer of [w] bits. *)
Definition wrap (w : Z) (z : Z) : Z :=
  let m := z mod 2 ^ w in
  if m <? 2 ^ (w - 1) then m else m - 2 ^ w.

Definition min_signed (w : Z) : Z := - 2 ^ (w - 1).
Definition max_signed (w : Z) : Z := 2 ^ (w - 1) - 1.

Definition in_range (w : Z) (z : Z) : Prop :=
  min_signed w <= z <= max_signed w.

Definition is_int32 (z : Z) : Prop := in_range 32 z.
Definition is_int64 (z : Z) : Prop := in_range 64 z.

Definition wrap64 : Z -> Z := wrap 64.

End Int.

(** ** Byte strings and [struct]'s little-endian integers *)

Module Bytes.

Definition byte_to_Z (b : byte) : Z := Z.of_N (Byte.to_N b).

Definition byte_of_Z (z : Z) : byte :=
  match Byte.of_N (Z.to_N (z mod 256)) with
  | Some b => b
  | None => x00
  end.

(** Unsigned value of a little-endian byte sequence. *)
Fixpoint le_unsigned (bs : list byte) : Z :=
  match bs with
  | [] => 0
  | b :: rest => byte_to_Z b + 256 * le_unsigned rest
  end.

(** Signed (two's complement) value, the width being the sequence's. *)
Definition le_signed (bs : list byte) : Z :=
  Int.wrap (8 * Z.of_nat (length bs)) (le_unsigned bs).

(** The [n] low bytes of [z], least significant first. *)
Fixpoint le_bytes (n : nat) (z : Z) : list byte :=
  match n with
  | O => []
  | S k => byte_of_Z z :: le_bytes k (z / 256)
  end.

(** [b[i:j]] *)
Definition slice (i j : nat) (bs : list byte) : list byte :=
  firstn (j - i) (skipn i bs).

(** [struct.unpack('<iiq', b)]: raises [struct.error] unless [b] holds
    exactly 16 bytes. *)
Definition unpack_iiq (b : list byte) : option (Z * Z * Z) :=
  if (length b =? 16)%nat
  then Some (le_signed (slice 0 4 b), le_signed (slice 4 8 b),
             le_signed (slice 8 16 b))
  else None.

Definition unpack_iiq_error : string :=
  "unpack requires a buffer of 16 bytes".

(** Modelled from the spec: the header encoder [encode(Header) -> bytes[16]]
    of section 4.1, which the scripts do not contain (they only decode);
    it is [struct.pack('<iiq', version, dataType, count)], the inverse
    layout of [unpack_iiq]. *)
Definition pack_iiq (version datatype count : Z) : list byte :=
  le_bytes 4 version ++ le_bytes 4 datatype ++ le_bytes 8 count.

End Bytes.

(** ** Python values shared by the scripts *)

(** Exceptions the scripts raise or let escape. *)
Inductive exn : Type :=
| ListMmfReadError (msg : string)
| ValueError (msg : string)
| KeyError (key : Z)
| SystemExit (code : Z).

Inductive result (A : Type) : Type :=
| Ok (a : A)
| Raise (e : exn).
Arguments Ok {A} a.
Arguments Raise {A} e.

(** [str(n)] for a Python integer. *)
Definition str_of_int (n : Z) : string := NilZero.string_of_int (Z.to_int n).

(** [str.lower] on the ASCII letters. *)
Definition lower_ascii (c : ascii) : ascii :=
  let n := nat_of_ascii c in
  if ((65 <=? n) && (n <=? 90))%nat then ascii_of_nat (n + 32) else c.

Fixpoint lower (s : string) : string :=
  match s with
  | EmptyString => EmptyString
  | String c rest => String (lower_ascii c) (lower rest)
  end.

(** [s.endswith(suffix)] *)
Definition endswith (s suffix : string) : bool :=
  let ls := String.length s in
  let lx := String.length suffix in
  (lx <=? ls)%nat && String.eqb (substring (ls - lx) lx s) suffix.

(** [os.path.join(root, fn)], also [Path(root) / fn]. *)
Definition os_path_join (root fn : string) : string :=
  if String.prefix "/" fn then fn
  else if String.eqb root "" || endswith root "/" then root +:+ fn
  else root +:+ "/" +:+ fn.

(** What a path names on disk.  [Dangling] is an entry that cannot be
    examined at all (a broken link: [stat] fails with the given platform
    message); [Unreadable] reports a size but cannot be opened; [Regular]
    holds the file's bytes. *)
Inductive node : Type :=
| Dangling (oserror : string)
| Unreadable (size : Z) (oserror : string)
| Regular (data : list byte).

Record filesystem : Type := {
  fs_node : string -> option node;
  fs_listdir : string -> option (list string)
}.

(** [os.path.getsize] / [Path.stat().st_size]. *)
Definition node_size (n : node) : string + Z :=
  match n with
  | Dangling e => inl e
  | Unreadable size _ => inr size
  | Regular data => inr (Z.of_nat (length data))
  end.

(** [Path.exists()] *)
Definition path_exists (fs : filesystem) (p : string) : bool :=
  match fs_node fs p with
  | Some (Unreadable _ _) | Some (Regular _) => true
  | Some (Dangling _) | None => false
  end.

(** [Path.is_dir()] *)
Definition is_dir (fs : filesystem) (p : string) : bool :=
  bool_decide (is_Some (fs_listdir fs p)).

(** [open(path, 'rb').read(k)]. *)
Definition node_read (k : nat) (n : node) : string + list byte :=
  match n with
  | Dangling e => inl e
  | Unreadable _ e => inl e
  | Regular data => inr (firstn k data)
  end.

(** ** scripts/listmmf_reader.py *)

Module Reader.

Definition DATA_TYPE_NAMES (code : Z) : option string :=
  match code with
  | 0 => Some "AnyStruct"
  | 1 => Some "Bit"
  | 2 => Some "SByte"
  | 3 => Some "Byte"
  | 4 => Some "Int16"
  | 5 => Some "UInt16"
  | 6 => Some "Int32"
  | 7 => Some "UInt32"
  | 8 => Some "Int64"
  | 9 => Some "UInt64"
  | 10 => Some "Single"
  | 11 => Some "Double"
  | 12 => Some "DateTime"
  | 13 => Some "UnixSeconds"
  | 14 => Some "Int24AsInt64"
  | 15 => Some "Int40AsInt64"
  | 16 => Some "Int48AsInt64"
  | 17 => Some "Int56AsInt64"
  | 18 => Some "UInt24AsInt64"
  | 19 => Some "UInt40AsInt64"
  | 20 => Some "UInt48AsInt64"
  | 21 => Some "UInt56AsInt64"
  | _ => None
  end%string.

(** NumPy element types the reader produces. *)
Inductive np_dtype : Type :=
| int8 | uint8 | int16 | uint16 | int32 | uint32 | int64 | uint64
| float32 | float64 | datetime64_ns.

Definition DTYPE_MAP (code : Z) : option np_dtype :=
  match code with
  | 2 => Some int8
  | 3 => Some uint8
  | 4 => Some int16
  | 5 => Some uint16
  | 6 => Some int32
  | 7 => Some uint32
  | 8 => Some int64
  | 9 => Some uint64
  | 10 => Some float32
  | 11 => Some float64
  | 12 => Some int64
  | 13 => Some int32
  | _ => None
  end.

Definition ODD_BYTE_TYPES : list Z := [14; 15; 16; 17; 18; 19; 20; 21].

Definition HEADER_SIZE : Z := 16.

Record ListMmfHeader : Type := {
  version : Z;
  datatype : Z;
  datatype_name : string;
  count : Z
}.

(** [dtype.itemsize] *)
Definition itemsize (d : np_dtype) : nat :=
  match d with
  | int8 | uint8 => 1
  | int16 | uint16 => 2
  | int32 | uint32 | float32 => 4
  | int64 | uint64 | float64 | datetime64_ns => 8
  end%nat.

Definition is_signed (d : np_dtype) : bool :=
  match d with
  | int8 | int16 | int32 | int64 | datetime64_ns => true
  | _ => false
  end.

(** A one-dimensional array.  An integer element is its value; a floating
    element is kept as its IEEE bit pattern (floating point values are not
    interpreted here); a [datetime64_ns] element is its count of
    nanoseconds since the Unix epoch, the least int64 standing for NaT. *)
Record ndarray : Type := {
  dtype : np_dtype;
  elems : list Z
}.

Definition decode_elem (d : np_dtype) (bs : list byte) : Z :=
  if is_signed d then Bytes.le_signed bs else Bytes.le_unsigned bs.

Fixpoint decode_elems (d : np_dtype) (n : nat) (bs : list byte) : list Z :=
  match n with
  | O => []
  | S k => decode_elem d (firstn (itemsize d) bs)
           :: decode_elems d k (skipn (itemsize d) bs)
  end.

Definition read_header (fs : filesystem) (filepath : string)
  : result ListMmfHeader :=
  match fs_node fs filepath with
  | None | Some (Dangling _) =>
      Raise (ListMmfReadError ("File not found: " +:+ filepath))
  | Some n =>
      let st_size := match node_size n with inr size => size | inl _ => 0 end in
      if st_size <? HEADER_SIZE
      then Raise (ListMmfReadError
                    ("File too small (< " +:+ str_of_int HEADER_SIZE
                     +:+ " bytes): " +:+ filepath))
      else
        let failed e :=
          Raise (ListMmfReadError
                   ("Failed to read header from " +:+ filepath
                    +:+ ": " +:+ e)) in
        match node_read (Z.to_nat HEADER_SIZE) n with
        | inl e => failed e
        | inr header_bytes =>
            match Bytes.unpack_iiq header_bytes with
            | None => failed Bytes.unpack_iiq_error
            | Some (version, datatype, count) =>
                let datatype_name :=
                  match DATA_TYPE_NAMES datatype with
                  | Some name => name
                  | None => "Unknown(" +:+ str_of_int datatype +:+ ")"
                  end in
                Ok {| version := version;
                      datatype := datatype;
                      datatype_name := datatype_name;
                      count := count |}
            end
        end
  end.

(** [np.memmap(filepath, dtype=dtype, mode='r', offset=offset,
    shape=(count,))]: the elements are decoded from the bytes
    [offset .. offset + count * itemsize); NumPy refuses a negative
    dimension and a mapping that reaches past the end of the file. *)
Definition np_memmap (n : node) (d : np_dtype) (offset : Z) (count : Z)
  : string + ndarray :=
  match n with
  | Dangling e | Unreadable _ e => inl e
  | Regular data =>
      if count <? 0
      then inl "negative dimensions are not allowed"%string
      else if Z.of_nat (length data)
              <? offset + count * Z.of_nat (itemsize d)
      then inl "mmap length is greater than file size"%string
      else inr {| dtype := d;
                  elems := decode_elems d (Z.to_nat count)
                             (skipn (Z.to_nat offset) data) |}
  end.

Definition read_listmmf (fs : filesystem) (filepath : string) (copy : bool)
  : result ndarray :=
  match read_header fs filepath with
  | Raise e => Raise e
  | Ok header =>
      if bool_decide (datatype header ∈ ODD_BYTE_TYPES)
      then Raise (ListMmfReadError
                    ("Odd-byte type " +:+ datatype_name header
                     +:+ " is not supported. "
                     +:+ "Consider exporting from C# to a standard format first."))
      else if datatype header =? 0
      then Raise (ListMmfReadError "Cannot read AnyStruct files (DataType=0)")
      else if datatype header =? 1
      then Raise (ListMmfReadError
                    ("BitArray files require special handling (not yet implemented). "
                     +:+ "Use the C# library or implement bit unpacking."))
      else
        match DTYPE_MAP (datatype header) with
        | None =>
            Raise (ListMmfReadError
                     ("Unsupported DataType: " +:+ datatype_name header))
        | Some dtype =>
            let mapped :=
              match fs_node fs filepath with
              | Some n => np_memmap n dtype HEADER_SIZE (count header)
              | None => inl "No such file or directory"%string
              end in
            match mapped with
            | inl e =>
                Raise (ListMmfReadError
                         ("Failed to read data from " +:+ filepath
                          +:+ ": " +:+ e))
            | inr data =>
                (* [copy] selects an owned copy or the mapping itself:
                   the elements are the same *)
                if copy then Ok data else Ok data
            end
        end
  end.

Definition DOTNET_TO_UNIX_TICKS : Z := 621355968000000000.

(** One element of [(ticks - DOTNET_TO_UNIX_TICKS) * 100] on an int64
    array: each operation is NumPy's, on 64 bits, and wraps. *)
Definition unix_ns (t : Z) : Z :=
  Int.wrap64 (Int.wrap64 (t - DOTNET_TO_UNIX_TICKS) * 100).

Definition convert_datetime (ticks : ndarray) : ndarray :=
  {| dtype := datetime64_ns; elems := map unix_ns (elems ticks) |}.

(** [astype('datetime64[s]').astype('datetime64[ns]')] on int32 seconds:
    the widening to 64 bits comes first, the scaling cannot overflow. *)
Definition convert_unixseconds (seconds : ndarray) : ndarray :=
  {| dtype := datetime64_ns;
     elems := map (fun s => Int.wrap64 (s * 1000000000)) (elems seconds) |}.

(** The instant a [datetime64_ns] element denotes, in nanoseconds since
    the Unix epoch; [None] for NaT. *)
Definition datetime64_value (v : Z) : option Z :=
  if v =? Int.min_signed 64 then None else Some v.

Definition read_mmf (fs : filesystem) (filepath : string) (as_datetime : bool)
  : result ndarray :=
  match read_listmmf fs filepath false with
  | Raise e => Raise e
  | Ok data =>
      if as_datetime
      then
        match read_header fs filepath with
        | Raise e => Raise e
        | Ok header =>
            if datatype header =? 12 then Ok (convert_datetime data)
            else if datatype header =? 13 then Ok (convert_unixseconds data)
            else Ok data
        end
      else Ok data
  end.

End Reader.

(** ** scripts/scan_listmmf_stats.py *)

Module Scan.

(** Element width (in bytes) of each DataType as stored on disk. *)
Definition ELEM_WIDTH_BYTES (code : Z) : option Z :=
  match code with
  | 1 => Some 1
  | 2 => Some 1
  | 3 => Some 1
  | 4 => Some 2
  | 5 => Some 2
  | 6 => Some 4
  | 7 => Some 4
  | 8 => Some 8
  | 9 => Some 8
  | 10 => Some 4
  | 11 => Some 8
  | 12 => Some 8
  | 13 => Some 4
  | 14 => Some 3
  | 15 => Some 5
  | 16 => Some 6
  | 17 => Some 7
  | 18 => Some 3
  | 19 => Some 5
  | 20 => Some 6
  | 21 => Some 7
  | _ => None
  end.

Definition ODD_BYTE_DT : list Z := [14; 15; 16; 17; 18; 19; 20; 21].

Definition ODD_FALLBACK_WIDTH (code : Z) : option Z :=
  match code with
  | 14 => Some 4
  | 18 => Some 4
  | 15 => Some 8
  | 16 => Some 8
  | 17 => Some 8
  | 19 => Some 8
  | 20 => Some 8
  | 21 => Some 8
  | _ => None
  end.

Definition LISTMMF_HEADER_SIZE : Z := 16.

Record FileInfo : Type := {
  path : string;
  size_bytes : Z;
  version : Z;
  data_type : Z;
  count : Z
}.

(** The lines written to standard error. *)
Definition stderr : Type := list string.

(** [read_header] never raises: every failure is reported on standard
    error and answered with [None]. *)
Definition read_header (path : string) (n : node) : stderr * option FileInfo :=
  let failed e :=
    (["ERROR: Failed reading header for " +:+ path +:+ ": " +:+ e], None) in
  match node_size n with
  | inl e => failed e
  | inr size =>
      if size <? LISTMMF_HEADER_SIZE
      then (["WARN: File too small for header: " +:+ path], None)
      else
        match node_read (Z.to_nat LISTMMF_HEADER_SIZE) n with
        | inl e => failed e
        | inr b =>
            match Bytes.unpack_iiq b with
            | None => failed Bytes.unpack_iiq_error
            | Some (version, data_type, count) =>
                ([], Some {| path := path; size_bytes := size;
                             version := version; data_type := data_type;
                             count := count |})
            end
        end
  end.

(** [collections.Counter]: a missing key reads as 0. *)
Definition counter_get (c : gmap Z Z) (k : Z) : Z := default 0 (c !! k).

(** [c[k] += v] *)
Definition counter_add (k v : Z) (c : gmap Z Z) : gmap Z Z :=
  <[k := counter_get c k + v]> c.

(** The local variables of [scan_dir]. *)
Record state : Type := {
  total_bytes : Z;
  total_files : Z;
  by_dtype_files : gmap Z Z;
  by_dtype_items : gmap Z Z;
  by_dtype_bytes : gmap Z Z;
  odd_files : Z;
  odd_saved_bytes_total : Z;
  odd_saved_bytes_by_dtype : gmap Z Z;
  results : list FileInfo;
  err : stderr
}.

Definition initial : state :=
  {| total_bytes := 0; total_files := 0;
     by_dtype_files := ∅; by_dtype_items := ∅; by_dtype_bytes := ∅;
     odd_files := 0; odd_saved_bytes_total := 0;
     odd_saved_bytes_by_dtype := ∅;
     results := []; err := [] |}.

(** One file name met by [os.walk]: the directory it is in, its name and
    what it names. *)
Record entry : Type := {
  root : string;
  fn : string;
  target : node
}.

(** The odd-byte part of the loop body; [Raise (KeyError dt)] is the
    subscript [ODD_FALLBACK_WIDTH[dt]] failing. *)
Definition account_odd (info : FileInfo) (s : state) : result state :=
  let dt := data_type info in
  if bool_decide (dt ∈ ODD_BYTE_DT)
  then
    let odd := ELEM_WIDTH_BYTES dt in
    match ODD_FALLBACK_WIDTH dt with
    | None => Raise (KeyError dt)
    | Some fb =>
        let s1 :=
          {| total_bytes := total_bytes s; total_files := total_files s;
             by_dtype_files := by_dtype_files s;
             by_dtype_items := by_dtype_items s;
             by_dtype_bytes := by_dtype_bytes s;
             odd_files := odd_files s + 1;
             odd_saved_bytes_total := odd_saved_bytes_total s;
             odd_saved_bytes_by_dtype := odd_saved_bytes_by_dtype s;
             results := results s; err := err s |} in
        match odd with
        | Some oddw =>
            if 0 <=? count info
            then
              let saved := (fb - oddw) * count info in
              if 0 <? saved
              then
                Ok {| total_bytes := total_bytes s1;
                      total_files := total_files s1;
                      by_dtype_files := by_dtype_files s1;
                      by_dtype_items := by_dtype_items s1;
                      by_dtype_bytes := by_dtype_bytes s1;
                      odd_files := odd_files s1;
                      odd_saved_bytes_total :=
                        odd_saved_bytes_total s1 + saved;
                      odd_saved_bytes_by_dtype :=
                        counter_add dt saved (odd_saved_bytes_by_dtype s1);
                      results := results s1; err := err s1 |}
              else Ok s1
            else Ok s1
        | None => Ok s1
        end
    end
  else Ok s.

(** The counters every decoded header updates. *)
Definition account (info : FileInfo) (s : state) : state :=
  let dt := data_type info in
  {| total_bytes := total_bytes s + size_bytes info;
     total_files := total_files s + 1;
     by_dtype_files := counter_add dt 1 (by_dtype_files s);
     by_dtype_items := counter_add dt (Z.max 0 (count info)) (by_dtype_items s);
     by_dtype_bytes := counter_add dt (size_bytes info) (by_dtype_bytes s);
     odd_files := odd_files s;
     odd_saved_bytes_total := odd_saved_bytes_total s;
     odd_saved_bytes_by_dtype := odd_saved_bytes_by_dtype s;
     results := results s; err := err s |}.

Definition log (lines : stderr) (s : state) : state :=
  {| total_bytes := total_bytes s; total_files := total_files s;
     by_dtype_files := by_dtype_files s;
     by_dtype_items := by_dtype_items s;
     by_dtype_bytes := by_dtype_bytes s;
     odd_files := odd_files s;
     odd_saved_bytes_total := odd_saved_bytes_total s;
     odd_saved_bytes_by_dtype := odd_saved_bytes_by_dtype s;
     results := results s; err := err s ++ lines |}.

Definition append_result (info : FileInfo) (s : state) : state :=
  {| total_bytes := total_bytes s; total_files := total_files s;
     by_dtype_files := by_dtype_files s;
     by_dtype_items := by_dtype_items s;
     by_dtype_bytes := by_dtype_bytes s;
     odd_files := odd_files s;
     odd_saved_bytes_total := odd_saved_bytes_total s;
     odd_saved_bytes_by_dtype := odd_saved_bytes_by_dtype s;
     results := results s ++ [info]; err := err s |}.

(** The body of the inner [for fn in files] loop. *)
Definition scan_file (s : state) (e : entry) : result state :=
  if negb (endswith (lower (fn e)) ".bt") then Ok s
  else
    let path := os_path_join (root e) (fn e) in
    let '(lines, info) := read_header path (target e) in
    let s := log lines s in
    match info with
    | None => Ok s
    | Some info =>
        match account_odd info (account info s) with
        | Raise x => Raise x
        | Ok s => Ok (append_result info s)
        end
    end.

(** The two nested loops, over the file names in the order [os.walk]
    yields them. *)
Fixpoint scan_from (s : state) (walk : list entry) : result state :=
  match walk with
  | [] => Ok s
  | e :: rest =>
      match scan_file s e with
      | Raise x => Raise x
      | Ok s' => scan_from s' rest
      end
  end.

(** The dictionary [scan_dir] returns. *)
Record stats : Type := {
  st_total_files : Z;
  st_total_bytes : Z;
  st_by_dtype_files : gmap Z Z;
  st_by_dtype_items : gmap Z Z;
  st_by_dtype_bytes : gmap Z Z;
  st_odd_files : Z;
  st_odd_saved_bytes_total : Z;
  st_odd_saved_bytes_by_dtype : gmap Z Z
}.

Definition stats_of (s : state) : stats :=
  {| st_total_files := total_files s;
     st_total_bytes := total_bytes s;
     st_by_dtype_files := by_dtype_files s;
     st_by_dtype_items := by_dtype_items s;
     st_by_dtype_bytes := by_dtype_bytes s;
     st_odd_files := odd_files s;
     st_odd_saved_bytes_total := odd_saved_bytes_total s;
     st_odd_saved_bytes_by_dtype := odd_saved_bytes_by_dtype s |}.

(** [scan_dir]: the returned dictionary together with what was written to
    standard error. *)
Definition scan_dir (walk : list entry) : result (stats * stderr) :=
  match scan_from initial walk with
  | Raise x => Raise x
  | Ok s => Ok (stats_of s, err s)
  end.

(** [sum(c.values())] *)
Definition counter_total (c : gmap Z Z) : Z :=
  map_fold (fun _ v acc => v + acc) 0 c.

End Scan.

(** ** Python dictionaries with string keys

    Insertion order is kept; assigning to a key already present replaces
    its value where it stands. *)

Module Dict.

Section Dict.
Context {V : Type}.

Fixpoint get (k : string) (d : list (string * V)) : option V :=
  match d with
  | [] => None
  | (k', v) :: rest => if String.eqb k k' then Some v else get k rest
  end.

(** [d[k] = v] *)
Fixpoint set (k : string) (v : V) (d : list (string * V))
  : list (string * V) :=
  match d with
  | [] => [(k, v)]
  | (k', v') :: rest =>
      if String.eqb k k' then (k, v) :: rest
      else (k', v') :: set k v rest
  end.

Definition keys (d : list (string * V)) : list string := map fst d.
Definition values (d : list (string * V)) : list V := map snd d.

End Dict.

End Dict.

(** ** scripts/mmf_to_parquet.py *)

Module Parquet.

Import Reader.

Definition stderr : Type := list string.

(** The first of the extensions, in the order given, under which the
    column exists in the directory. *)
Fixpoint try_extensions (fs : filesystem) (directory col : string)
         (exts : list string) : option string :=
  match exts with
  | [] => None
  | ext :: rest =>
      let filepath := os_path_join directory (col +:+ ext) in
      if path_exists fs filepath then Some filepath
      else try_extensions fs directory col rest
  end.

(** The loop over the requested column names. *)
Fixpoint find_columns (fs : filesystem) (directory : string)
         (column_names : list string)
         (files : list (string * string)) (err : stderr)
  : list (string * string) * stderr :=
  match column_names with
  | [] => (files, err)
  | col :: rest =>
      let files :=
        match try_extensions fs directory col [".mmf"; ".bt"]%string with
        | Some filepath => Dict.set col filepath files
        | None => files
        end in
      let err :=
        match Dict.get col files with
        | None => err ++ ["WARNING: Column '" +:+ col +:+ "' not found in "
                          +:+ directory]
        | Some _ => err
        end in
      find_columns fs directory rest files err
  end.

(** [Path.stem] of a name that matched the pattern [*ext]. *)
Definition stem (name ext : string) : string :=
  if String.eqb name ext then name
  else substring 0 (String.length name - String.length ext) name.

(** [directory.glob('*' + ext)]: the names of the directory that end
    with [ext], as listed. *)
Definition glob (fs : filesystem) (directory ext : string) : list string :=
  match fs_listdir fs directory with
  | Some names => filter (fun name => Is_true (endswith name ext)) names
  | None => []
  end.

Definition detect_ext (fs : filesystem) (directory ext : string)
           (files : list (string * string)) : list (string * string) :=
  fold_left
    (fun files name =>
       Dict.set (stem name ext) (os_path_join directory name) files)
    (glob fs directory ext) files.

Definition find_mmf_files (fs : filesystem) (directory : string)
           (column_names : option (list string))
  : stderr * result (list (string * string)) :=
  if negb (is_dir fs directory)
  then ([], Raise (ValueError ("Not a directory: " +:+ directory)))
  else
    match column_names with
    | Some (col :: rest) =>
        let '(files, err) := find_columns fs directory (col :: rest) [] [] in
        (err, Ok files)
    | Some [] | None =>
        ([], Ok (detect_ext fs directory ".bt"
                   (detect_ext fs directory ".mmf" [])))
    end.

(** [pd.Series(data, name=column_name)] *)
Record Series : Type := {
  name : string;
  data : ndarray
}.

(** [len(series)] *)
Definition series_len (s : Series) : nat := length (elems (data s)).

Definition read_column (fs : filesystem) (filepath column_name : string)
  : result Series :=
  match read_header fs filepath with
  | Raise e => Raise e
  | Ok header =>
      let as_datetime :=
        bool_decide (lower column_name
                     ∈ ["timestamp"; "datetime"; "time"]%string) in
      match read_mmf fs filepath as_datetime with
      | Raise e => Raise e
      | Ok data => Ok {| name := column_name; data := data |}
      end
  end.

(** A cell of a table: a value of the column's type or one of the two
    missing-value sentinels. *)
Inductive cell : Type :=
| Value (v : Z)
| NaN
| NaT.

Record column : Type := {
  col_name : string;
  col_dtype : np_dtype;
  cells : list cell
}.

Abbreviation DataFrame := (list column).

(** [len(df)] *)
Definition nrows (df : DataFrame) : nat :=
  match df with
  | [] => O
  | c :: _ => length (cells c)
  end.

(** The missing-value sentinel of a column type. *)
Definition missing (d : np_dtype) : cell :=
  match d with
  | datetime64_ns => NaT
  | _ => NaN
  end.

(** The type a column takes once it holds a missing value: integers have
    no sentinel of their own and are widened to [float64]. *)
Definition nullable (d : np_dtype) : np_dtype :=
  match d with
  | datetime64_ns => datetime64_ns
  | float32 => float32
  | _ => float64
  end.

Definition cell_of (d : np_dtype) (v : Z) : cell :=
  match d with
  | datetime64_ns => if v =? Int.min_signed 64 then NaT else Value v
  | _ => Value v
  end.

Definition max_len (columns : list (string * Series)) : nat :=
  foldr Nat.max O (map (fun kv => series_len (snd kv)) columns).

(** Modelled from the spec: the table constructor [pd.DataFrame(columns)]
    of the pandas library, which is not part of the scripts.  Section 3
    (MergedTable) and section 4.6 give its contract: one column per input
    name, in the caller's order; the logical length is the maximum of the
    columns' lengths; the cells beyond a short column's length are the
    missing-value sentinel of its element type. *)
Definition pd_DataFrame (columns : list (string * Series)) : DataFrame :=
  let n := max_len columns in
  map (fun '(key, s) =>
         let d := dtype (data s) in
         let own := map (cell_of d) (elems (data s)) in
         if (series_len s =? n)%nat
         then {| col_name := key; col_dtype := d; cells := own |}
         else {| col_name := key; col_dtype := nullable d;
                 cells := own ++ replicate (n - series_len s) (missing d) |})
      columns.

(** [f"{n:,}"] *)
Fixpoint group3 (rev_digits : list ascii) (k : nat) : list ascii :=
  match rev_digits with
  | [] => []
  | c :: rest =>
      if (k =? 3)%nat then ","%char :: c :: group3 rest 1
      else c :: group3 rest (S k)
  end.

Definition fmt_thousands (n : Z) : string :=
  let digits := list_ascii_of_string (str_of_int (Z.abs n)) in
  let grouped := string_of_list_ascii (rev (group3 (rev digits) 0)) in
  if n <? 0 then "-" +:+ grouped else grouped.

(** The loop that reads every column; a read error ends the program. *)
Fixpoint read_columns (fs : filesystem) (files : list (string * string))
         (columns : list (string * Series)) (max_length : nat)
         (err : stderr)
  : stderr * result (list (string * Series) * nat) :=
  match files with
  | [] => (err, Ok (columns, max_length))
  | (col_name, filepath) :: rest =>
      match read_column fs filepath col_name with
      | Ok series =>
          read_columns fs rest (Dict.set col_name series columns)
                       (Nat.max max_length (series_len series)) err
      | Raise (ListMmfReadError e) =>
          (err ++ ["ERROR reading " +:+ col_name +:+ ": " +:+ e],
           Raise (SystemExit 1))
      | Raise e => (err, Raise e)
      end
  end.

Definition length_warning (columns : list (string * Series)) : stderr :=
  ["WARNING: Columns have different lengths:"%string]
  ++ map (fun '(key, s) =>
            "  " +:+ key +:+ ": "
            +:+ fmt_thousands (Z.of_nat (series_len s))) columns
  ++ ["Creating DataFrame with mismatched lengths (NaN will be filled)."%string].

(** [len(set(lengths.values())) > 1] *)
Definition lengths_differ (columns : list (string * Series)) : bool :=
  (1 <? length (remove_dups (map (fun kv => series_len (snd kv)) columns)))%nat.

(** [convert_to_parquet], up to the table it builds and returns; writing
    the table out and reporting the sizes is the export library's part. *)
Definition convert_to_parquet (fs : filesystem) (files : list (string * string))
  : stderr * result DataFrame :=
  match files with
  | [] => ([], Raise (ValueError "No files to convert"))
  | _ :: _ =>
      match read_columns fs files [] O [] with
      | (err, Raise e) => (err, Raise e)
      | (err, Ok (columns, max_length)) =>
          let err :=
            if lengths_differ columns then err ++ length_warning columns
            else err in
          (err, Ok (pd_DataFrame columns))
      end
  end.

End Parquet.

(** ** Sample inputs *)

(** A file of [count] elements of type [code], all bytes zero. *)
Definition blank_file (code count width : Z) : node :=
  Regular (Bytes.pack_iiq 1 code count
           ++ replicate (Z.to_nat (count * width)) x00).

Definition one_file_fs (filepath : string) (n : node) : filesystem :=
  {| fs_node p := if String.eqb p filepath then Some n else None;
     fs_listdir p := None |}.

(** The scanner meeting that file. *)
Definition synthetic_entry (code count width : Z) : Scan.entry :=
  {| Scan.root := "data"; Scan.fn := "Synthetic.bt";
     Scan.target := blank_file code count width |}.

(** A column file cut short, under an upper-case extension. *)
Definition truncated_entry : Scan.entry :=
  {| Scan.root := "data"; Scan.fn := "Short.BT";
     Scan.target := Regular [x01; x00; x00; x00] |}.

(** A column file holding the given values, [width] bytes each. *)
Definition column_file (code : Z) (width : nat) (vals : list Z) : node :=
  Regular (Bytes.pack_iiq 1 code (Z.of_nat (length vals))
           ++ flat_map (Bytes.le_bytes width) vals).

(** A directory [d] with a 10-element column A, a 7-element column B and a
    Time column present under both extensions. *)
Definition sample_fs : filesystem :=
  {| fs_node p :=
       if String.eqb p "d/A.bt"
       then Some (column_file 8 8 [1; 2; 3; 4; 5; 6; 7; 8; 9; 10])
       else if String.eqb p "d/B.bt"
       then Some (column_file 6 4 [-1; -2; -3; -4; -5; -6; -7])
       else if String.eqb p "d/Time.mmf"
       then Some (column_file 12 8 [621355968000000000; 621355968010000000])
       else if String.eqb p "d/Time.bt"
       then Some (column_file 12 8 [621355968000000000])
       else None;
     fs_listdir p :=
       if String.eqb p "d"
       then Some ["A.bt"; "B.bt"; "Time.mmf"; "Time.bt"]%string
       else None |}.

(** ** What a scan is expected to count *)

(** A file name that the scanner takes for a column file but whose header
    it cannot use: the entry cannot be examined or opened, or the file is
    smaller than the 16-byte header. *)
Definition bad_file (n : node) : bool :=
  match n with
  | Dangling _ | Unreadable _ _ => true
  | Regular data => (length data <? 16)%nat
  end.

(** The header the scanner decodes at an entry, if any. *)
Definition decoded (e : Scan.entry) : option Scan.FileInfo :=
  if endswith (lower (Scan.fn e)) ".bt"
  then snd (Scan.read_header (os_path_join (Scan.root e) (Scan.fn e))
                             (Scan.target e))
  else None.

Definition decoded_headers (walk : list Scan.entry) : list Scan.FileInfo :=
  omap decoded walk.

Definition sum_list (l : list Z) : Z := foldr Z.add 0 l.

(** The decoded headers of one type code. *)
Definition of_type (dt : Z) (infos : list Scan.FileInfo) : list Scan.FileInfo :=
  filter (fun info => Scan.data_type info = dt) infos.

(** The variables of a scan agree with the headers decoded so far: the
    totals with the sums over the per-type counters, and all of them with
    the headers themselves, each counted once. *)
Definition consistent (s : Scan.state) (infos : list Scan.FileInfo) : Prop :=
  Scan.total_files s = Scan.counter_total (Scan.by_dtype_files s)
  /\ Scan.total_bytes s = Scan.counter_total (Scan.by_dtype_bytes s)
  /\ Scan.results s = infos
  /\ Scan.total_files s = Z.of_nat (length infos)
  /\ Scan.total_bytes s = sum_list (map Scan.size_bytes infos)
  /\ forall dt,
       Scan.counter_get (Scan.by_dtype_files s) dt
       = Z.of_nat (length (of_type dt infos))
       /\ Scan.counter_get (Scan.by_dtype_bytes s) dt
          = sum_list (map Scan.size_bytes (of_type dt infos)).

(** ** What the reader is expected to decode *)

(** The values an element type holds: the integers of its width and
    signedness; for a floating type, the bit patterns of its width. *)
Definition dtype_holds (d : Reader.np_dtype) (v : Z) : Prop :=
  if Reader.is_signed d
  then Int.in_range (8 * Z.of_nat (Reader.itemsize d)) v
  else 0 <= v < 2 ^ (8 * Z.of_nat (Reader.itemsize d)).

(** The payload of a column file: its elements, little-endian, one after
    the other. *)
Definition payload (d : Reader.np_dtype) (vals : list Z) : list byte :=
  flat_map (Bytes.le_bytes (Reader.itemsize d)) vals.

(** ** What a scan is expected to return *)

(** The bytes an odd-byte file saves against the next standard width;
    nothing for the other types and for a count that is not positive. *)
Definition saving (info : Scan.FileInfo) : Z :=
  if bool_decide (Scan.data_type info ∈ Scan.ODD_BYTE_DT)
  then match Scan.ODD_FALLBACK_WIDTH (Scan.data_type info),
             Scan.ELEM_WIDTH_BYTES (Scan.data_type info) with
       | Some fb, Some w => Z.max 0 ((fb - w) * Scan.count info)
       | _, _ => 0
       end
  else 0.

(** The entry of a per-type counter: none while no header of the type was
    decoded, the sum of the headers' contributions afterwards. *)
Definition expected_counter (f : Scan.FileInfo -> Z)
           (infos : list Scan.FileInfo) (dt : Z) : option Z :=
  match of_type dt infos with
  | [] => None
  | l => Some (sum_list (map f l))
  end.

(** The entry of the savings counter: present once the type has saved
    something. *)
Definition expected_savings (infos : list Scan.FileInfo) (dt : Z) : option Z :=
  let total := sum_list (map saving (of_type dt infos)) in
  if 0 <? total then Some total else None.

(** The variables of a scan, all of them, as functions of the headers
    decoded so far. *)
Definition determined (s : Scan.state) (infos : list Scan.FileInfo) : Prop :=
  Scan.total_files s = Z.of_nat (length infos)
  /\ Scan.total_bytes s = sum_list (map Scan.size_bytes infos)
  /\ Scan.odd_files s
     = Z.of_nat (length (filter (fun i => Scan.data_type i ∈ Scan.ODD_BYTE_DT)
                                infos))
  /\ Scan.odd_saved_bytes_total s = sum_list (map saving infos)
  /\ forall dt,
       Scan.by_dtype_files s !! dt = expected_counter (fun _ => 1) infos dt
       /\ Scan.by_dtype_items s !! dt
          = expected_counter (fun i => Z.max 0 (Scan.count i)) infos dt
       /\ Scan.by_dtype_bytes s !! dt
          = expected_counter Scan.size_bytes infos dt
       /\ Scan.odd_saved_bytes_by_dtype s !! dt = expected_savings infos dt.

(** The file names the scanner takes for column files. *)
Definition is_bt (e : Scan.entry) : Prop :=
  endswith (lower (Scan.fn e)) ".bt" = true.

(** The lines an entry puts on standard error. *)
Definition warning_lines (e : Scan.entry) : list string :=
  if endswith (lower (Scan.fn e)) ".bt"
  then fst (Scan.read_header (os_path_join (Scan.root e) (Scan.fn e))
                             (Scan.target e))
  else [].

(** ** What a column lookup is expected to report *)

(** The warning for a requested column that is not in the directory. *)
Definition not_found_warning (directory col : string) : string :=
  "WARNING: Column '" +:+ col +:+ "' not found in " +:+ directory.

(** A requested column is found when one of the two files exists. *)
Definition found (fs : filesystem) (directory col : string) : Prop :=
  path_exists fs (os_path_join directory (col +:+ ".mmf")) = true
  \/ path_exists fs (os_path_join directory (col +:+ ".bt")) = true.

#[global] Instance found_dec (fs : filesystem) (directory col : string) :
  Decision (found fs directory col).
Proof. unfold found. apply _. Defined.

(** * Properties *)

(** ** Two's complement reduction *)

Section Wrap.
Variable w : Z.
Hypothesis w_pos : 0 < w.

Lemma pow2_split : 2 ^ w = 2 * 2 ^ (w - 1).
Proof. rewrite <- Z.pow_succ_r by lia. f_equal. lia. Qed.

Lemma wrap_in_range (z : Z) : Int.in_range w (Int.wrap w z).
Proof.
  unfold Int.in_range, Int.min_signed, Int.max_signed, Int.wrap.
  pose proof pow2_split as Hs.
  assert (0 < 2 ^ (w - 1)) by (apply Z.pow_pos_nonneg; lia).
  pose proof (Z.mod_pos_bound z (2 ^ w)) as Hb.
  destruct (Z.ltb_spec (z mod 2 ^ w) (2 ^ (w - 1))); lia.
Qed.

Lemma wrap_congruent (z : Z) : exists k, Int.wrap w z = z + k * 2 ^ w.
Proof.
  unfold Int.wrap.
  assert (0 < 2 ^ w) by (apply Z.pow_pos_nonneg; lia).
  pose proof (Z.div_mod z (2 ^ w)) as Hd.
  destruct (Z.ltb_spec (z mod 2 ^ w) (2 ^ (w - 1))).
  - exists (- (z / 2 ^ w)). lia.
  - exists (- (z / 2 ^ w) - 1). lia.
Qed.

Lemma wrap_id (z : Z) : Int.in_range w z -> Int.wrap w z = z.
Proof.
  intros Hr. destruct (wrap_congruent z) as [k Hk].
  pose proof (wrap_in_range z) as Hw. rewrite Hk in *.
  unfold Int.in_range, Int.min_signed, Int.max_signed in *.
  pose proof pow2_split as Hs.
  assert (0 < 2 ^ (w - 1)) by (apply Z.pow_pos_nonneg; lia).
  assert (k = 0) by nia. subst k. lia.
Qed.

Lemma wrap_fixed_iff (z : Z) : Int.wrap w z = z <-> Int.in_range w z.
Proof.
  split; [intros E; rewrite <- E; apply wrap_in_range | apply wrap_id].
Qed.

Lemma wrap_mod (z : Z) : Int.wrap w (z mod 2 ^ w) = Int.wrap w z.
Proof. unfold Int.wrap. now rewrite Z.mod_mod by (apply Z.pow_nonzero; lia). Qed.

Lemma wrap_mul_l (a b : Z) : Int.wrap w (Int.wrap w a * b) = Int.wrap w (a * b).
Proof.
  destruct (wrap_congruent a) as [k Hk]. rewrite Hk.
  unfold Int.wrap.
  replace ((a + k * 2 ^ w) * b) with (a * b + (k * b) * 2 ^ w) by ring.
  now rewrite Z.mod_add by (apply Z.pow_nonzero; lia).
Qed.
End Wrap.

Lemma wrap64_in_range (z : Z) : Int.is_int64 (Int.wrap64 z).
Proof. apply wrap_in_range. lia. Qed.

Lemma wrap64_fixed_iff (z : Z) : Int.wrap64 z = z <-> Int.is_int64 z.
Proof. apply wrap_fixed_iff. lia. Qed.

(** ** Epoch conversion *)

(** The two NumPy operations amount to one reduction of the exact product. *)
Lemma unix_ns_congruent (t : Z) :
  Reader.unix_ns t = Int.wrap64 ((t - Reader.DOTNET_TO_UNIX_TICKS) * 100).
Proof. unfold Reader.unix_ns, Int.wrap64. apply wrap_mul_l. lia. Qed.

Lemma unix_ns_exact (t : Z) :
  Int.is_int64 ((t - Reader.DOTNET_TO_UNIX_TICKS) * 100) ->
  Reader.unix_ns t = (t - Reader.DOTNET_TO_UNIX_TICKS) * 100.
Proof. intros H. rewrite unix_ns_congruent. now apply wrap64_fixed_iff. Qed.

(** No product by 100 is the least int64, so an exact result is never NaT. *)
Lemma exact_ns_not_NaT (x : Z) :
  Reader.datetime64_value (x * 100) = Some (x * 100).
Proof.
  unfold Reader.datetime64_value, Int.min_signed.
  destruct (Z.eqb_spec (x * 100) (- 2 ^ (64 - 1))) as [E|]; [|reflexivity].
  exfalso. change (- 2 ^ (64 - 1)) with (-9223372036854775808) in E. lia.
Qed.

(** C1, as the code has it: on every array of ticks whose products
    [(t - 621355968000000000) * 100] fit the signed 64-bit range of
    [datetime64[ns]], [convert_datetime] yields exactly these products as
    nanoseconds since the Unix epoch; it sends the tick count of the Unix
    epoch to 0 ns and 10_000_000 ticks later to one second. *)
Theorem convert_datetime_exact_in_range (ticks : Reader.ndarray)
  (Hfit : Forall (fun t => Int.is_int64 ((t - 621355968000000000) * 100))
                 (Reader.elems ticks)) :
  Reader.dtype (Reader.convert_datetime ticks) = Reader.datetime64_ns
  /\ map Reader.datetime64_value (Reader.elems (Reader.convert_datetime ticks))
     = map (fun t => Some ((t - 621355968000000000) * 100)) (Reader.elems ticks)
  /\ Reader.unix_ns 621355968000000000 = 0
  /\ Reader.unix_ns (621355968000000000 + 10000000) = 1000000000.
Proof.
  split; [reflexivity|]. split; [|split; reflexivity].
  unfold Reader.convert_datetime; cbn [Reader.elems].
  induction Hfit as [|t ts Ht _ IH]; [reflexivity|].
  cbn [map]. rewrite IH. f_equal.
  rewrite (unix_ns_exact t Ht). apply exact_ns_not_NaT.
Qed.

Lemma convert_datetime_exact_in_range_witness :
  map Reader.datetime64_value
      (Reader.elems (Reader.convert_datetime
         {| Reader.dtype := Reader.int64;
            Reader.elems := [621355968000000000; 621355968020000000;
                             621355967990000000] |}))
  = [Some 0; Some 2000000000; Some (-1000000000)].
Proof.
  refine (proj1 (proj2 (convert_datetime_exact_in_range
    {| Reader.dtype := Reader.int64;
       Reader.elems := [621355968000000000; 621355968020000000;
                             621355967990000000] |} _))).
  cbn [Reader.elems].
  repeat (apply List.Forall_cons; [vm_compute; split; discriminate|]).
  apply List.Forall_nil.
Defined.

(** C1 as stated fails: at the greatest int64 tick count the product does
    not fit 64 bits and the code yields another value. *)
Lemma convert_datetime_max_tick_wraps :
  Int.is_int64 9223372036854775807
  /\ Reader.elems (Reader.convert_datetime
       {| Reader.dtype := Reader.int64;
          Reader.elems := [9223372036854775807] |})
     <> [(9223372036854775807 - 621355968000000000) * 100].
Proof. split; [vm_compute; split; discriminate | vm_compute; discriminate]. Qed.

(** C5, as the code has it: the conversion runs in 64-bit arithmetic that
    wraps.  For an int64 tick count [t] its result is the exact product
    reduced to 64 bits; it is the exact product if and only if
    [t] lies within 92233720368547758 ticks of the Unix epoch's tick
    count, the range in which the product fits. *)
Theorem unix_ns_exact_iff (t : Z) (Ht : Int.is_int64 t) :
  Int.is_int64 (Reader.unix_ns t)
  /\ Reader.unix_ns t = Int.wrap64 ((t - 621355968000000000) * 100)
  /\ (Reader.unix_ns t = (t - 621355968000000000) * 100
      <-> 621355968000000000 - 92233720368547758 <= t
          <= 621355968000000000 + 92233720368547758).
Proof.
  split; [apply wrap64_in_range|]. split; [apply unix_ns_congruent|].
  rewrite unix_ns_congruent.
  change Reader.DOTNET_TO_UNIX_TICKS with 621355968000000000.
  rewrite wrap64_fixed_iff.
  unfold Int.is_int64, Int.in_range, Int.min_signed, Int.max_signed.
  change (2 ^ (64 - 1)) with 9223372036854775808. lia.
Qed.

Lemma unix_ns_exact_iff_witness :
  Reader.unix_ns 621355968010000000 = Int.wrap64 ((621355968010000000 - 621355968000000000) * 100).
Proof.
  refine (proj1 (proj2 (unix_ns_exact_iff 621355968010000000 _))).
  vm_compute; split; discriminate.
Defined.

(** C5 as stated fails: at the least int64 tick count already the
    subtraction leaves the 64-bit range, and the result is not the exact
    product. *)
Lemma unix_ns_min_tick_overflows :
  Int.is_int64 (-9223372036854775808)
  /\ ~ Int.is_int64 (-9223372036854775808 - 621355968000000000)
  /\ Reader.unix_ns (-9223372036854775808)
     <> (-9223372036854775808 - 621355968000000000) * 100.
Proof.
  split; [vm_compute; split; discriminate|].
  split; [|vm_compute; discriminate].
  intros [H _]. vm_compute in H. apply H. reflexivity.
Qed.
(** ** Header codec *)

Lemma byte_to_of_Z (z : Z) : Bytes.byte_to_Z (Bytes.byte_of_Z z) = z mod 256.
Proof.
  unfold Bytes.byte_to_Z, Bytes.byte_of_Z.
  pose proof (Z.mod_pos_bound z 256 ltac:(lia)) as Hb.
  destruct (Byte.of_N (Z.to_N (z mod 256))) as [b|] eqn:E.
  - apply Byte.to_of_N in E. rewrite E. lia.
  - exfalso. pose proof (Byte.to_of_N_option_map (Z.to_N (z mod 256))) as H.
    rewrite E in H. cbn [option_map] in H.
    destruct (N.leb_spec (Z.to_N (z mod 256)) 255) as [|Hgt]; [discriminate|].
    lia.
Qed.

Lemma le_bytes_length (n : nat) (z : Z) : length (Bytes.le_bytes n z) = n.
Proof. revert z. induction n as [|n IH]; intros z; cbn; [|rewrite IH]; reflexivity. Qed.

Lemma le_unsigned_bytes (n : nat) (z : Z) :
  Bytes.le_unsigned (Bytes.le_bytes n z) = z mod 2 ^ (8 * Z.of_nat n).
Proof.
  revert z. induction n as [|n IH]; intros z.
  - cbn. now rewrite Z.mod_1_r.
  - cbn [Bytes.le_bytes Bytes.le_unsigned]. rewrite IH, byte_to_of_Z.
    replace (8 * Z.of_nat (S n)) with (8 + 8 * Z.of_nat n) by lia.
    rewrite Z.pow_add_r by lia. change (2 ^ 8) with 256.
    rewrite Z.rem_mul_r; [reflexivity | lia |].
    apply Z.pow_pos_nonneg; lia.
Qed.

Lemma le_signed_bytes (n : nat) (z : Z) :
  (0 < n)%nat -> Int.in_range (8 * Z.of_nat n) z ->
  Bytes.le_signed (Bytes.le_bytes n z) = z.
Proof.
  intros Hn Hr. unfold Bytes.le_signed.
  rewrite le_bytes_length, le_unsigned_bytes.
  rewrite wrap_mod by lia. apply wrap_id; [lia | exact Hr].
Qed.

Lemma unpack_pack (v d c : Z) :
  Int.is_int32 v -> Int.is_int32 d -> Int.is_int64 c ->
  Bytes.unpack_iiq (Bytes.pack_iiq v d c) = Some (v, d, c).
Proof.
  intros Hv Hd Hc. unfold Bytes.unpack_iiq, Bytes.pack_iiq.
  rewrite !length_app, !le_bytes_length. cbn [Nat.add Nat.eqb].
  replace (Bytes.slice 0 4 (Bytes.le_bytes 4 v ++ Bytes.le_bytes 4 d ++ Bytes.le_bytes 8 c))
    with (Bytes.le_bytes 4 v) by reflexivity.
  replace (Bytes.slice 4 8 (Bytes.le_bytes 4 v ++ Bytes.le_bytes 4 d ++ Bytes.le_bytes 8 c))
    with (Bytes.le_bytes 4 d) by reflexivity.
  replace (Bytes.slice 8 16 (Bytes.le_bytes 4 v ++ Bytes.le_bytes 4 d ++ Bytes.le_bytes 8 c))
    with (Bytes.le_bytes 8 c) by reflexivity.
  rewrite !le_signed_bytes; try lia; try assumption. reflexivity.
Qed.

Lemma pack_iiq_length (v d c : Z) : length (Bytes.pack_iiq v d c) = 16%nat.
Proof. unfold Bytes.pack_iiq. now rewrite !length_app, !le_bytes_length. Qed.

Lemma header_prefix (v d c : Z) (payload : list byte) :
  firstn 16 (Bytes.pack_iiq v d c ++ payload) = Bytes.pack_iiq v d c.
Proof.
  rewrite firstn_app, pack_iiq_length, Nat.sub_diag. cbn [firstn].
  rewrite app_nil_r. apply firstn_all2. rewrite pack_iiq_length. lia.
Qed.

(** C8: a header whose version and type code are int32 and whose count is
    int64 is encoded on 16 bytes, and decoding these bytes gives the
    header back; so do both scripts' [read_header] on any file that starts
    with them. *)
Theorem header_round_trip (v d c : Z)
  (Hv : Int.is_int32 v) (Hd : Int.is_int32 d) (Hc : Int.is_int64 c) :
  length (Bytes.pack_iiq v d c) = 16%nat
  /\ Bytes.unpack_iiq (Bytes.pack_iiq v d c) = Some (v, d, c)
  /\ forall (fs : filesystem) (filepath : string) (payload : list byte),
       fs_node fs filepath = Some (Regular (Bytes.pack_iiq v d c ++ payload)) ->
       (exists h, Reader.read_header fs filepath = Ok h
                  /\ Reader.version h = v /\ Reader.datatype h = d
                  /\ Reader.count h = c)
       /\ Scan.read_header filepath (Regular (Bytes.pack_iiq v d c ++ payload))
          = ([], Some {| Scan.path := filepath;
                         Scan.size_bytes := 16 + Z.of_nat (length payload);
                         Scan.version := v; Scan.data_type := d;
                         Scan.count := c |}).
Proof.
  split; [apply pack_iiq_length|]. split; [now apply unpack_pack|].
  intros fs filepath payload Hnode.
  assert (Hsize : Z.of_nat (length (Bytes.pack_iiq v d c ++ payload))
                  = 16 + Z.of_nat (length payload)).
  { rewrite length_app, pack_iiq_length. lia. }
  split.
  - unfold Reader.read_header. rewrite Hnode. cbn [node_size node_read].
    rewrite Hsize. unfold Reader.HEADER_SIZE.
    destruct (Z.ltb_spec (16 + Z.of_nat (length payload)) 16); [lia|].
    change (Z.to_nat 16) with 16%nat.
    rewrite header_prefix, unpack_pack by assumption.
    eexists. split; [reflexivity|]. cbn. auto.
  - unfold Scan.read_header. cbn [node_size node_read].
    rewrite Hsize. unfold Scan.LISTMMF_HEADER_SIZE.
    destruct (Z.ltb_spec (16 + Z.of_nat (length payload)) 16); [lia|].
    change (Z.to_nat 16) with 16%nat.
    now rewrite header_prefix, unpack_pack by assumption.
Qed.

Lemma header_round_trip_witness :
  Bytes.unpack_iiq (Bytes.pack_iiq 1 12 (-3)) = Some (1, 12, -3).
Proof.
  refine (proj1 (proj2 (header_round_trip 1 12 (-3) _ _ _)));
    vm_compute; split; discriminate.
Defined.

(** ** Data-type registry *)

Lemma odd_byte_codes (code : Z) :
  code ∈ Scan.ODD_BYTE_DT <-> 14 <= code <= 21.
Proof.
  unfold Scan.ODD_BYTE_DT. rewrite !elem_of_cons, elem_of_nil. lia.
Qed.

Ltac split_pos p := destruct p as [p|p|].

(** Case analysis on a type code, far enough to tell the codes 0..21 apart. *)
Ltac code_cases code :=
  let p := fresh "p" in
  destruct code as [|p|p];
  [ | split_pos p; try split_pos p; try split_pos p; try split_pos p;
      try split_pos p | ].

(** C6 as stated fails: the scanner's width table gives the bit-packed
    code 1 a width, one byte. *)
Lemma width_of_bit_is_defined : Scan.ELEM_WIDTH_BYTES 1 <> None.
Proof. discriminate. Qed.

(** C6, as the code has it: the width table [ELEM_WIDTH_BYTES] gives every
    decodable and odd-byte code (2..21) a width between 1 and 8 bytes, the
    odd-byte codes the widths 3, 5, 6 and 7 of their names, and every
    decodable code the item size of the NumPy type [DTYPE_MAP] reads it
    with; it has no entry for the struct code 0 nor for any code outside
    0..21; the bit-packed code 1 has the entry 1.  [DTYPE_MAP] has an entry
    for the decodable codes 2..13 only, so none for codes 0 and 1. *)
Theorem width_lookup (code : Z) :
  (2 <= code <= 21 ->
     exists w, Scan.ELEM_WIDTH_BYTES code = Some w /\ 1 <= w <= 8)
  /\ (forall d, Reader.DTYPE_MAP code = Some d ->
        Scan.ELEM_WIDTH_BYTES code = Some (Z.of_nat (Reader.itemsize d)))
  /\ (is_Some (Reader.DTYPE_MAP code) <-> 2 <= code <= 13)
  /\ (code ∈ Scan.ODD_BYTE_DT ->
        Scan.ELEM_WIDTH_BYTES code
        = Some (if bool_decide (code ∈ [14; 18]) then 3
                else if bool_decide (code ∈ [15; 19]) then 5
                else if bool_decide (code ∈ [16; 20]) then 6 else 7))
  /\ (code <= 0 \/ 21 < code -> Scan.ELEM_WIDTH_BYTES code = None)
  /\ Scan.ELEM_WIDTH_BYTES 0 = None
  /\ Scan.ELEM_WIDTH_BYTES 1 = Some 1
  /\ Reader.DTYPE_MAP 0 = None
  /\ Reader.DTYPE_MAP 1 = None.
Proof.
  split; [|split; [|split; [|split; [|split; [|repeat split]]]]].
  - code_cases code; cbn; intros; try lia; eexists; (split; [reflexivity|lia]).
  - code_cases code; cbn; intros d Hd; try discriminate;
      injection Hd as <-; reflexivity.
  - split.
    + intros [d Hd]; revert Hd. code_cases code; cbn; intros; try discriminate; lia.
    + code_cases code; cbn; intros; try lia; eexists; reflexivity.
  - rewrite odd_byte_codes.
    code_cases code; cbn; intros; try lia; reflexivity.
  - code_cases code; cbn; intros; try lia; reflexivity.
Qed.

Lemma width_lookup_witness :
  exists w, Scan.ELEM_WIDTH_BYTES 16 = Some w /\ 1 <= w <= 8.
Proof. apply (proj1 (width_lookup 16)). lia. Defined.

(** ** Reader *)

Lemma reader_odd_byte_codes (code : Z) :
  code ∈ Reader.ODD_BYTE_TYPES <-> 14 <= code <= 21.
Proof.
  unfold Reader.ODD_BYTE_TYPES. rewrite !elem_of_cons, elem_of_nil. lia.
Qed.

(** A decoded header carries the registry's name of its type code. *)
Lemma read_header_name (fs : filesystem) (filepath : string)
      (h : Reader.ListMmfHeader) :
  Reader.read_header fs filepath = Ok h ->
  Reader.datatype_name h
  = match Reader.DATA_TYPE_NAMES (Reader.datatype h) with
    | Some name => name
    | None => "Unknown(" +:+ str_of_int (Reader.datatype h) +:+ ")"
    end.
Proof.
  unfold Reader.read_header.
  destruct (fs_node fs filepath) as [[e|size e|data]|]; try discriminate.
  - destruct (_ <? _); [discriminate|]. cbn. discriminate.
  - destruct (_ <? _); [discriminate|]. cbn [node_read].
    destruct (Bytes.unpack_iiq _) as [[[v d] c]|]; [|discriminate].
    intros [= <-]. reflexivity.
Qed.

Lemma odd_byte_names (code : Z) :
  14 <= code <= 21 ->
  exists name, Reader.DATA_TYPE_NAMES code = Some name.
Proof. code_cases code; cbn; intros; try lia; eexists; reflexivity. Qed.

(** C2: when the header of a file decodes and declares one of the eight
    odd-byte codes 14..21, [read_listmmf] raises [ListMmfReadError], in
    either mode; the message is the odd-byte one and contains the
    registry's name of the code; no array is returned.  [read_mmf] fails in
    the same way. *)
Theorem read_listmmf_rejects_odd_byte (fs : filesystem) (filepath : string)
  (copy as_datetime : bool) (h : Reader.ListMmfHeader)
  (Hh : Reader.read_header fs filepath = Ok h)
  (Hodd : Reader.datatype h ∈ Reader.ODD_BYTE_TYPES) :
  exists name,
    Reader.DATA_TYPE_NAMES (Reader.datatype h) = Some name
    /\ Reader.read_listmmf fs filepath copy
       = Raise (ListMmfReadError
                  ("Odd-byte type " +:+ name +:+ " is not supported. "
                   +:+ "Consider exporting from C# to a standard format first."))
    /\ (forall data, Reader.read_listmmf fs filepath copy <> Ok data)
    /\ Reader.read_mmf fs filepath as_datetime
       = Reader.read_listmmf fs filepath copy.
Proof.
  pose proof (read_header_name _ _ _ Hh) as Hname.
  destruct (odd_byte_names (Reader.datatype h)) as [name Hn];
    [now apply reader_odd_byte_codes|].
  rewrite Hn in Hname.
  assert (Hr : forall c, Reader.read_listmmf fs filepath c
       = Raise (ListMmfReadError
                  ("Odd-byte type " +:+ name +:+ " is not supported. "
                   +:+ "Consider exporting from C# to a standard format first."))).
  { intros c. unfold Reader.read_listmmf. rewrite Hh.
    rewrite bool_decide_eq_true_2 by exact Hodd. now rewrite Hname. }
  exists name. split; [exact Hn|]. split; [apply Hr|]. split.
  - intros data. rewrite Hr. discriminate.
  - unfold Reader.read_mmf. now rewrite !Hr.
Qed.

Lemma read_listmmf_rejects_odd_byte_witness :
  exists name,
    Reader.DATA_TYPE_NAMES 14 = Some name
    /\ Reader.read_listmmf (one_file_fs "Volume.bt" (blank_file 14 5 3))
                           "Volume.bt" false
       = Raise (ListMmfReadError
                  ("Odd-byte type " +:+ name +:+ " is not supported. "
                   +:+ "Consider exporting from C# to a standard format first.")).
Proof.
  destruct (read_listmmf_rejects_odd_byte
              (one_file_fs "Volume.bt" (blank_file 14 5 3)) "Volume.bt"
              false true
              {| Reader.version := 1; Reader.datatype := 14;
                 Reader.datatype_name := "Int24AsInt64"; Reader.count := 5 |}
              eq_refl ltac:(vm_compute; set_solver))
    as (name & Hn & Hr & _).
  exists name. split; [exact Hn | exact Hr].
Defined.

(** ** Scanner: odd-byte savings *)

(** The odd-byte tables have the same keys, so the subscript
    [ODD_FALLBACK_WIDTH[dt]] is always defined where it is evaluated. *)
Lemma odd_widths (dt : Z) :
  dt ∈ Scan.ODD_BYTE_DT ->
  exists fb w,
    Scan.ODD_FALLBACK_WIDTH dt = Some fb /\ Scan.ELEM_WIDTH_BYTES dt = Some w
    /\ fb = (if bool_decide (dt ∈ [14; 18]) then 4 else 8)
    /\ 0 < fb - w.
Proof.
  rewrite odd_byte_codes.
  code_cases dt; cbn; intros; try lia;
    do 2 eexists; (split; [reflexivity|split; [reflexivity|split; [reflexivity|lia]]]).
Qed.

(** C3: for a scanned file whose header decodes and declares an odd-byte
    type, the loop body adds [saved = (fallbackWidth - actualWidth) * count]
    to the total and to the type's entry of the savings counters when
    [saved > 0] and leaves both as they are otherwise, the fallback width
    being 4 for codes 14 and 18 and 8 for the other six; a file of type 14
    with 1000 elements contributes 1000 bytes, one of type 15 with 1000
    elements 3000 bytes. *)
Theorem odd_byte_savings (s : Scan.state) (e : Scan.entry)
  (lines : Scan.stderr) (info : Scan.FileInfo)
  (Hbt : endswith (lower (Scan.fn e)) ".bt" = true)
  (Hinfo : Scan.read_header (os_path_join (Scan.root e) (Scan.fn e))
                            (Scan.target e) = (lines, Some info))
  (Hodd : Scan.data_type info ∈ Scan.ODD_BYTE_DT) :
  (exists fb w s',
     Scan.ODD_FALLBACK_WIDTH (Scan.data_type info) = Some fb
     /\ Scan.ELEM_WIDTH_BYTES (Scan.data_type info) = Some w
     /\ fb = (if bool_decide (Scan.data_type info ∈ [14; 18]) then 4 else 8)
     /\ Scan.scan_file s e = Ok s'
     /\ Scan.odd_files s' = Scan.odd_files s + 1
     /\ let saved := (fb - w) * Scan.count info in
        Scan.odd_saved_bytes_total s'
        = Scan.odd_saved_bytes_total s + (if 0 <? saved then saved else 0)
        /\ Scan.odd_saved_bytes_by_dtype s'
           = (if 0 <? saved
              then Scan.counter_add (Scan.data_type info) saved
                     (Scan.odd_saved_bytes_by_dtype s)
              else Scan.odd_saved_bytes_by_dtype s))
  /\ (forall st log,
        Scan.scan_dir [synthetic_entry 14 1000 3] = Ok (st, log) ->
        Scan.st_odd_saved_bytes_total st = 1000
        /\ Scan.st_odd_saved_bytes_by_dtype st !! 14 = Some 1000)
  /\ (forall st log,
        Scan.scan_dir [synthetic_entry 15 1000 5] = Ok (st, log) ->
        Scan.st_odd_saved_bytes_total st = 3000
        /\ Scan.st_odd_saved_bytes_by_dtype st !! 15 = Some 3000).
Proof.
  split; [|split; intros st log H; vm_compute in H; injection H as <- _;
                  split; reflexivity].
  destruct (odd_widths _ Hodd) as (fb & w & Hfb & Hw & Hval & Hpos).
  exists fb, w. unfold Scan.scan_file. rewrite Hbt, Hinfo. cbn [negb].
  unfold Scan.account_odd. cbn [Scan.data_type].
  rewrite (bool_decide_eq_true_2 _ Hodd), Hfb, Hw.
  destruct (Z.leb_spec 0 (Scan.count info)) as [Hc|Hc].
  - destruct (Z.ltb_spec 0 ((fb - w) * Scan.count info)) as [Hs|Hs];
      eexists; (split; [reflexivity|]); (split; [reflexivity|]);
      (split; [exact Hval|]); (split; [reflexivity|]);
      cbn; repeat split; try reflexivity; lia.
  - destruct (Z.ltb_spec 0 ((fb - w) * Scan.count info)) as [Hs|Hs]; [nia|].
    eexists; (split; [reflexivity|]); (split; [reflexivity|]);
      (split; [exact Hval|]); (split; [reflexivity|]);
      cbn; repeat split; try reflexivity; lia.
Qed.

Lemma odd_byte_savings_witness :
  exists s',
    Scan.scan_file Scan.initial (synthetic_entry 14 1000 3) = Ok s'
    /\ Scan.odd_files s' = 1
    /\ Scan.odd_saved_bytes_total s' = 1000.
Proof.
  destruct (proj1 (odd_byte_savings Scan.initial (synthetic_entry 14 1000 3) []
              {| Scan.path := "data/Synthetic.bt"; Scan.size_bytes := 3016;
                 Scan.version := 1; Scan.data_type := 14;
                 Scan.count := 1000 |}
              eq_refl eq_refl (proj2 (odd_byte_codes 14) ltac:(lia))))
    as (fb & w & s' & Hfb & Hw & _ & Hstep & Hfiles & Htotal & _).
  exists s'. split; [exact Hstep|]. split; [exact Hfiles|].
  injection Hfb as <-. injection Hw as <-. exact Htotal.
Defined.

(** ** Counters *)

Lemma counter_total_insert_fresh (k v : Z) (c : gmap Z Z) :
  c !! k = None -> Scan.counter_total (<[k := v]> c) = v + Scan.counter_total c.
Proof.
  intros Hk. unfold Scan.counter_total.
  apply (map_fold_insert_L (fun _ x acc => x + acc)); [|exact Hk].
  intros; lia.
Qed.

Lemma counter_total_add (k v : Z) (c : gmap Z Z) :
  Scan.counter_total (Scan.counter_add k v c) = Scan.counter_total c + v.
Proof.
  unfold Scan.counter_add, Scan.counter_get.
  destruct (c !! k) as [x|] eqn:Hk; cbn [default].
  - rewrite <- (insert_delete_id c k x Hk) at 2.
    rewrite <- (insert_delete_eq c k (x + v)).
    rewrite !counter_total_insert_fresh by apply lookup_delete_eq. lia.
  - rewrite counter_total_insert_fresh by exact Hk. lia.
Qed.

Lemma counter_get_add (k v j : Z) (c : gmap Z Z) :
  Scan.counter_get (Scan.counter_add k v c) j
  = Scan.counter_get c j + (if decide (k = j) then v else 0).
Proof.
  unfold Scan.counter_add, Scan.counter_get at 1.
  rewrite lookup_insert. destruct (decide (k = j)) as [->|]; cbn [default].
  - reflexivity.
  - unfold Scan.counter_get. lia.
Qed.
(** ** Scanner: the loop *)

(** The odd-byte accounting never raises and touches the odd-byte
    variables only. *)
Lemma account_odd_frame (info : Scan.FileInfo) (s : Scan.state) :
  exists s',
    Scan.account_odd info s = Ok s'
    /\ Scan.total_bytes s' = Scan.total_bytes s
    /\ Scan.total_files s' = Scan.total_files s
    /\ Scan.by_dtype_files s' = Scan.by_dtype_files s
    /\ Scan.by_dtype_items s' = Scan.by_dtype_items s
    /\ Scan.by_dtype_bytes s' = Scan.by_dtype_bytes s
    /\ Scan.results s' = Scan.results s
    /\ Scan.err s' = Scan.err s.
Proof.
  unfold Scan.account_odd.
  destruct (bool_decide (Scan.data_type info ∈ Scan.ODD_BYTE_DT)) eqn:Hodd.
  - apply bool_decide_eq_true_1 in Hodd.
    destruct (odd_widths _ Hodd) as (fb & w & -> & -> & _).
    destruct (0 <=? Scan.count info); [destruct (0 <? _)|];
      eexists; (split; [reflexivity|]); cbn; repeat split.
  - eexists; split; [reflexivity|]. repeat split.
Qed.

(** What the loop body does at an entry, by what is decoded there. *)
Lemma scan_file_step (s : Scan.state) (e : Scan.entry) :
  exists lines s',
    Scan.scan_file s e = Ok s'
    /\ Scan.err s' = Scan.err s ++ lines
    /\ match decoded e with
       | None =>
           Scan.total_bytes s' = Scan.total_bytes s
           /\ Scan.total_files s' = Scan.total_files s
           /\ Scan.by_dtype_files s' = Scan.by_dtype_files s
           /\ Scan.by_dtype_items s' = Scan.by_dtype_items s
           /\ Scan.by_dtype_bytes s' = Scan.by_dtype_bytes s
           /\ Scan.odd_files s' = Scan.odd_files s
           /\ Scan.odd_saved_bytes_total s' = Scan.odd_saved_bytes_total s
           /\ Scan.odd_saved_bytes_by_dtype s' = Scan.odd_saved_bytes_by_dtype s
           /\ Scan.results s' = Scan.results s
       | Some info =>
           Scan.total_bytes s' = Scan.total_bytes s + Scan.size_bytes info
           /\ Scan.total_files s' = Scan.total_files s + 1
           /\ Scan.by_dtype_files s'
              = Scan.counter_add (Scan.data_type info) 1 (Scan.by_dtype_files s)
           /\ Scan.by_dtype_items s'
              = Scan.counter_add (Scan.data_type info)
                  (Z.max 0 (Scan.count info)) (Scan.by_dtype_items s)
           /\ Scan.by_dtype_bytes s'
              = Scan.counter_add (Scan.data_type info) (Scan.size_bytes info)
                  (Scan.by_dtype_bytes s)
           /\ Scan.results s' = Scan.results s ++ [info]
       end.
Proof.
  unfold Scan.scan_file, decoded.
  destruct (endswith (lower (Scan.fn e)) ".bt"); cbn [negb].
  2:{ exists [], s. rewrite app_nil_r. repeat split. }
  destruct (Scan.read_header _ _) as [lines [info|]]; cbn [snd].
  - destruct (account_odd_frame info (Scan.account info (Scan.log lines s)))
      as (s2 & -> & Hb & Hf & Hbf & Hbi & Hbb & Hr & He).
    exists lines. eexists. split; [reflexivity|].
    cbn. rewrite Hb, Hf, Hbf, Hbi, Hbb, Hr, He. cbn. repeat split.
  - exists lines. eexists. split; [reflexivity|]. cbn. repeat split.
Qed.

Lemma scan_from_total (walk : list Scan.entry) (s : Scan.state) :
  exists s', Scan.scan_from s walk = Ok s'.
Proof.
  revert s. induction walk as [|e rest IH]; intros s; cbn [Scan.scan_from].
  - eauto.
  - destruct (scan_file_step s e) as (lines & s1 & -> & _). apply IH.
Qed.

Lemma scan_from_app (w1 w2 : list Scan.entry) (s s1 : Scan.state) :
  Scan.scan_from s w1 = Ok s1 ->
  Scan.scan_from s (w1 ++ w2) = Scan.scan_from s1 w2.
Proof.
  revert s. induction w1 as [|e rest IH]; intros s; cbn [Scan.scan_from app].
  - now intros [= ->].
  - destruct (Scan.scan_file s e); [apply IH | discriminate].
Qed.

(** Standard error only grows. *)
Lemma scan_from_err (walk : list Scan.entry) (s s' : Scan.state) :
  Scan.scan_from s walk = Ok s' -> exists l, Scan.err s' = Scan.err s ++ l.
Proof.
  revert s. induction walk as [|e rest IH]; intros s; cbn [Scan.scan_from].
  - intros [= ->]. exists []. now rewrite app_nil_r.
  - destruct (scan_file_step s e) as (lines & s1 & -> & He & _).
    intros H. destruct (IH _ H) as [l Hl].
    exists (lines ++ l). now rewrite Hl, He, app_assoc.
Qed.

(** The returned statistics do not depend on what was logged so far. *)
Lemma scan_file_stats (s1 s2 s1' s2' : Scan.state) (e : Scan.entry) :
  Scan.stats_of s1 = Scan.stats_of s2 ->
  Scan.scan_file s1 e = Ok s1' -> Scan.scan_file s2 e = Ok s2' ->
  Scan.stats_of s1' = Scan.stats_of s2'.
Proof.
  intros Hs. unfold Scan.stats_of in Hs.
  injection Hs as Hf Hb Hbf Hbi Hbb Hof Hot Hob.
  unfold Scan.scan_file.
  destruct (negb _); [intros [= <-] [= <-]; unfold Scan.stats_of; congruence|].
  destruct (Scan.read_header _ _) as [lines [info|]].
  - unfold Scan.account_odd.
    destruct (bool_decide _); [|intros [= <-] [= <-]; unfold Scan.stats_of; cbn; congruence].
    destruct (Scan.ODD_FALLBACK_WIDTH _); [|discriminate].
    destruct (Scan.ELEM_WIDTH_BYTES _);
      [destruct (0 <=? _); [destruct (0 <? _)|]|];
      intros [= <-] [= <-]; unfold Scan.stats_of; cbn; congruence.
  - intros [= <-] [= <-]; unfold Scan.stats_of; cbn; congruence.
Qed.

Lemma scan_from_stats (walk : list Scan.entry) (s1 s2 s1' s2' : Scan.state) :
  Scan.stats_of s1 = Scan.stats_of s2 ->
  Scan.scan_from s1 walk = Ok s1' -> Scan.scan_from s2 walk = Ok s2' ->
  Scan.stats_of s1' = Scan.stats_of s2'.
Proof.
  revert s1 s2. induction walk as [|e rest IH]; intros s1 s2 Hs;
    cbn [Scan.scan_from].
  - intros [= <-] [= <-]. exact Hs.
  - destruct (Scan.scan_file s1 e) as [t1|] eqn:E1; [|discriminate].
    destruct (Scan.scan_file s2 e) as [t2|] eqn:E2; [|discriminate].
    apply IH. exact (scan_file_stats _ _ _ _ _ Hs E1 E2).
Qed.

(** ** Scanner: bad files *)

Lemma read_header_bad (path : string) (n : node) :
  bad_file n = true ->
  exists line,
    Scan.read_header path n = ([line], None)
    /\ (line = "WARN: File too small for header: " +:+ path
        \/ exists msg,
             line = "ERROR: Failed reading header for " +:+ path +:+ ": " +:+ msg).
Proof.
  unfold Scan.read_header, Scan.LISTMMF_HEADER_SIZE.
  destruct n as [e|size e|data]; cbn [bad_file node_size node_read].
  - intros _. eexists. split; [reflexivity|]. right. eauto.
  - intros _. destruct (size <? 16); eexists; (split; [reflexivity|]);
      [left; reflexivity | right; eauto].
  - intros Hlen. apply Nat.ltb_lt in Hlen.
    destruct (Z.ltb_spec (Z.of_nat (length data)) 16); [|lia].
    eexists. split; [reflexivity|]. left; reflexivity.
Qed.

Lemma read_header_good (path : string) (n : node) :
  bad_file n = false ->
  exists info, Scan.read_header path n = ([], Some info)
               /\ Scan.path info = path.
Proof.
  unfold Scan.read_header, Scan.LISTMMF_HEADER_SIZE.
  destruct n as [e|size e|data]; cbn [bad_file node_size node_read];
    try discriminate.
  intros Hlen. apply Nat.ltb_ge in Hlen.
  destruct (Z.ltb_spec (Z.of_nat (length data)) 16); [lia|].
  change (Z.to_nat 16) with 16%nat. unfold Bytes.unpack_iiq.
  rewrite length_firstn, Nat.min_l by exact Hlen. cbn [Nat.eqb].
  eexists. split; reflexivity.
Qed.

Lemma decoded_bad (e : Scan.entry) :
  bad_file (Scan.target e) = true -> decoded e = None.
Proof.
  intros Hbad. unfold decoded. destruct (endswith _ _); [|reflexivity].
  destruct (read_header_bad (os_path_join (Scan.root e) (Scan.fn e)) _ Hbad)
    as (line & -> & _). reflexivity.
Qed.

(** The loop body at a bad column file: one line on standard error, no
    change to what the scan returns. *)
Lemma scan_file_bad (s : Scan.state) (e : Scan.entry) :
  endswith (lower (Scan.fn e)) ".bt" = true ->
  bad_file (Scan.target e) = true ->
  exists line,
    Scan.scan_file s e = Ok (Scan.log [line] s)
    /\ (line = "WARN: File too small for header: "
               +:+ os_path_join (Scan.root e) (Scan.fn e)
        \/ exists msg,
             line = "ERROR: Failed reading header for "
                    +:+ os_path_join (Scan.root e) (Scan.fn e)
                    +:+ ": " +:+ msg).
Proof.
  intros Hbt Hbad.
  destruct (read_header_bad (os_path_join (Scan.root e) (Scan.fn e)) _ Hbad)
    as (line & Hr & Hline).
  exists line. split; [|exact Hline].
  unfold Scan.scan_file. now rewrite Hbt, Hr.
Qed.

(** C7: a scan of any directory tree completes and returns statistics;
    a column file in it that cannot be examined or opened or is smaller
    than 16 bytes puts one warning line naming it on standard error, and
    the returned statistics are those of the scan without that file. *)
Theorem scan_dir_skips_bad_files (walk : list Scan.entry) :
  exists st log,
    Scan.scan_dir walk = Ok (st, log)
    /\ forall before e after,
         walk = before ++ e :: after ->
         endswith (lower (Scan.fn e)) ".bt" = true ->
         bad_file (Scan.target e) = true ->
         (exists log', Scan.scan_dir (before ++ after) = Ok (st, log'))
         /\ decoded e = None
         /\ exists line,
              line ∈ log
              /\ (line = "WARN: File too small for header: "
                         +:+ os_path_join (Scan.root e) (Scan.fn e)
                  \/ exists msg,
                       line = "ERROR: Failed reading header for "
                              +:+ os_path_join (Scan.root e) (Scan.fn e)
                              +:+ ": " +:+ msg).
Proof.
  unfold Scan.scan_dir.
  destruct (scan_from_total walk Scan.initial) as [s Hs]. rewrite Hs.
  do 2 eexists. split; [reflexivity|].
  intros before e after -> Hbt Hbad.
  destruct (scan_from_total before Scan.initial) as [s1 H1].
  rewrite (scan_from_app _ _ _ _ H1) in Hs. cbn [Scan.scan_from] in Hs.
  destruct (scan_file_bad s1 e Hbt Hbad) as (line & Hstep & Hline).
  rewrite Hstep in Hs.
  destruct (scan_from_total after s1) as [s2 H2].
  split; [|split; [now apply decoded_bad|]].
  - rewrite (scan_from_app _ _ _ _ H1), H2. eexists. f_equal. f_equal.
    apply (scan_from_stats after s1 (Scan.log [line] s1)); auto.
  - exists line. split; [|exact Hline].
    destruct (scan_from_err _ _ _ Hs) as [l ->]. cbn [Scan.log Scan.err].
    rewrite !elem_of_app, list_elem_of_singleton. auto.
Qed.

Lemma scan_dir_skips_bad_files_witness :
  exists st log log',
    Scan.scan_dir [synthetic_entry 14 1000 3; truncated_entry;
                   synthetic_entry 15 1000 5] = Ok (st, log)
    /\ Scan.scan_dir [synthetic_entry 14 1000 3; synthetic_entry 15 1000 5]
       = Ok (st, log').
Proof.
  destruct (scan_dir_skips_bad_files
              [synthetic_entry 14 1000 3; truncated_entry;
               synthetic_entry 15 1000 5])
    as (st & log & Hscan & Hskip).
  destruct (Hskip [synthetic_entry 14 1000 3] truncated_entry
                  [synthetic_entry 15 1000 5] eq_refl eq_refl eq_refl)
    as ((log' & Hwithout) & _).
  exists st, log, log'. split; [exact Hscan | exact Hwithout].
Defined.

(** ** Scanner: totals and per-type breakdown *)

Lemma sum_list_snoc (l : list Z) (x : Z) : sum_list (l ++ [x]) = sum_list l + x.
Proof.
  unfold sum_list. induction l as [|y l IH]; cbn [foldr app]; [lia|].
  rewrite IH. lia.
Qed.

Lemma decoded_headers_snoc (done : list Scan.entry) (e : Scan.entry) :
  decoded_headers (done ++ [e])
  = decoded_headers done ++ match decoded e with Some i => [i] | None => [] end.
Proof.
  unfold decoded_headers. rewrite omap_app. reflexivity.
Qed.

Lemma consistent_initial : consistent Scan.initial [].
Proof. repeat split. Qed.

Lemma consistent_step (s s' : Scan.state) (done : list Scan.entry)
      (e : Scan.entry) :
  consistent s (decoded_headers done) ->
  Scan.scan_file s e = Ok s' ->
  consistent s' (decoded_headers (done ++ [e])).
Proof.
  intros (Hf & Hb & Hr & Hn & Hsz & Hdt) Hstep.
  destruct (scan_file_step s e) as (lines & s1 & Hs1 & _ & Hcase).
  rewrite Hstep in Hs1. injection Hs1 as <-.
  rewrite decoded_headers_snoc.
  destruct (decoded e) as [info|].
  - destruct Hcase as (Eb & Ef & Ebf & _ & Ebb & Er).
    unfold consistent. rewrite Eb, Ef, Ebf, Ebb, Er.
    rewrite !counter_total_add, length_app, map_app.
    cbn [length map]. rewrite sum_list_snoc. repeat split; try lia; try congruence.
    + rewrite counter_get_add. unfold of_type. rewrite filter_app, length_app.
      rewrite (proj1 (Hdt dt)). unfold of_type.
      destruct (decide (Scan.data_type info = dt)) as [E|E].
      * rewrite filter_cons_True by exact E. cbn. lia.
      * rewrite filter_cons_False by exact E. cbn. lia.
    + rewrite counter_get_add. unfold of_type. rewrite filter_app, map_app.
      rewrite (proj2 (Hdt dt)). unfold of_type.
      destruct (decide (Scan.data_type info = dt)) as [E|E].
      * rewrite filter_cons_True by exact E. cbn [filter map].
        rewrite filter_nil. cbn [map]. rewrite sum_list_snoc. reflexivity.
      * rewrite filter_cons_False by exact E. rewrite filter_nil. cbn [map].
        rewrite app_nil_r. lia.
  - destruct Hcase as (Eb & Ef & Ebf & _ & Ebb & _ & _ & _ & Er).
    rewrite app_nil_r. unfold consistent.
    rewrite Eb, Ef, Ebf, Ebb, Er. repeat split; auto; apply Hdt.
Qed.

Lemma consistent_scan (rest done : list Scan.entry) (s : Scan.state) :
  consistent s (decoded_headers done) ->
  exists s', Scan.scan_from s rest = Ok s'
             /\ consistent s' (decoded_headers (done ++ rest)).
Proof.
  revert done s. induction rest as [|e rest IH]; intros done s Hc.
  - exists s. rewrite app_nil_r. split; [reflexivity | exact Hc].
  - cbn [Scan.scan_from].
    destruct (scan_file_step s e) as (lines & s1 & Hs1 & _).
    rewrite Hs1. replace (done ++ e :: rest) with ((done ++ [e]) ++ rest)
      by now rewrite <- app_assoc.
    apply IH. exact (consistent_step _ _ _ _ Hc Hs1).
Qed.

(** C9: the scan of the files met so far has left the total file count
    equal to the sum of the per-type file counts and the total byte count
    equal to the sum of the per-type byte totals, whatever files follow;
    the totals and the per-type entries count each decoded header once; the
    dictionary [scan_dir] returns has both equalities. *)
Theorem scan_totals_match_breakdown (walk rest : list Scan.entry) :
  exists s st log,
    Scan.scan_from Scan.initial walk = Ok s
    /\ Scan.scan_from Scan.initial (walk ++ rest) = Scan.scan_from s rest
    /\ Scan.total_files s = Scan.counter_total (Scan.by_dtype_files s)
    /\ Scan.total_bytes s = Scan.counter_total (Scan.by_dtype_bytes s)
    /\ Scan.total_files s = Z.of_nat (length (decoded_headers walk))
    /\ Scan.total_bytes s = sum_list (map Scan.size_bytes (decoded_headers walk))
    /\ (forall dt,
          Scan.counter_get (Scan.by_dtype_files s) dt
          = Z.of_nat (length (of_type dt (decoded_headers walk)))
          /\ Scan.counter_get (Scan.by_dtype_bytes s) dt
             = sum_list (map Scan.size_bytes (of_type dt (decoded_headers walk))))
    /\ Scan.scan_dir walk = Ok (st, log)
    /\ Scan.st_total_files st = Scan.counter_total (Scan.st_by_dtype_files st)
    /\ Scan.st_total_bytes st = Scan.counter_total (Scan.st_by_dtype_bytes st).
Proof.
  destruct (consistent_scan walk [] Scan.initial consistent_initial)
    as (s & Hs & Hf & Hb & _ & Hn & Hsz & Hdt).
  cbn [app] in *.
  exists s, (Scan.stats_of s), (Scan.err s).
  split; [exact Hs|]. split; [exact (scan_from_app _ _ _ _ Hs)|].
  unfold Scan.scan_dir. rewrite Hs. cbn [Scan.stats_of Scan.st_total_files
    Scan.st_total_bytes Scan.st_by_dtype_files Scan.st_by_dtype_bytes].
  repeat split; auto; apply Hdt.
Qed.


(** ** Dictionaries *)

Lemma dict_get_set {V : Type} (k k' : string) (v : V) (d : list (string * V)) :
  Dict.get k' (Dict.set k v d)
  = if String.eqb k' k then Some v else Dict.get k' d.
Proof.
  induction d as [|[k0 v0] d IH]; cbn [Dict.set Dict.get].
  - reflexivity.
  - destruct (String.eqb_spec k k0) as [->|Hk]; cbn [Dict.get].
    + destruct (String.eqb k' k0); reflexivity.
    + rewrite IH. destruct (String.eqb_spec k' k0) as [->|]; [|reflexivity].
      destruct (String.eqb_spec k0 k) as [->|]; [congruence | reflexivity].
Qed.

(** ** Column lookup in a directory *)

Section FindColumns.
Variable fs : filesystem.
Variable directory : string.

(** What the loop leaves under a name: the file found for it if the
    name was requested and found, the entry it had before otherwise. *)
Lemma find_columns_get (column_names : list string)
      (files : list (string * string)) (err : Parquet.stderr) (c : string) :
  Dict.get c (fst (Parquet.find_columns fs directory column_names files err))
  = if bool_decide (c ∈ column_names)
    then match Parquet.try_extensions fs directory c [".mmf"; ".bt"]%string with
         | Some p => Some p
         | None => Dict.get c files
         end
    else Dict.get c files.
Proof.
  revert files err.
  induction column_names as [|col rest IH]; intros files err;
    cbn [Parquet.find_columns fst].
  - reflexivity.
  - rewrite IH.
    assert (Hfiles :
      Dict.get c
        match Parquet.try_extensions fs directory col [".mmf"; ".bt"]%string with
        | Some filepath => Dict.set col filepath files
        | None => files
        end
      = if String.eqb c col
        then match Parquet.try_extensions fs directory c [".mmf"; ".bt"]%string with
             | Some p => Some p
             | None => Dict.get c files
             end
        else Dict.get c files).
    { destruct (String.eqb_spec c col) as [->|Hne].
      - destruct (Parquet.try_extensions _ _ col _); [|reflexivity].
        now rewrite dict_get_set, String.eqb_refl.
      - destruct (Parquet.try_extensions _ _ col _); [|reflexivity].
        rewrite dict_get_set.
        destruct (String.eqb_spec c col); [congruence | reflexivity]. }
    rewrite Hfiles.
    destruct (String.eqb_spec c col) as [->|Hne].
    + rewrite (bool_decide_eq_true_2 (col ∈ col :: rest))
        by apply list_elem_of_here.
      destruct (bool_decide (col ∈ rest));
        destruct (Parquet.try_extensions _ _ col _); reflexivity.
    + destruct (bool_decide (c ∈ rest)) eqn:Hin.
      * apply bool_decide_eq_true_1 in Hin.
        rewrite (bool_decide_eq_true_2 (c ∈ col :: rest))
          by now apply list_elem_of_further.
        reflexivity.
      * apply bool_decide_eq_false_1 in Hin.
        rewrite (bool_decide_eq_false_2 (c ∈ col :: rest)); [reflexivity|].
        rewrite elem_of_cons. tauto.
Qed.

Lemma find_columns_err_kept (column_names : list string)
      (files : list (string * string)) (err : Parquet.stderr) (line : string) :
  line ∈ err ->
  line ∈ snd (Parquet.find_columns fs directory column_names files err).
Proof.
  revert files err.
  induction column_names as [|col rest IH]; intros files err Hin;
    cbn [Parquet.find_columns snd]; [exact Hin|].
  apply IH. destruct (Dict.get col _); [exact Hin|].
  apply elem_of_app. now left.
Qed.

Lemma find_columns_warns (column_names : list string)
      (files : list (string * string)) (err : Parquet.stderr) (c : string) :
  c ∈ column_names ->
  Parquet.try_extensions fs directory c [".mmf"; ".bt"]%string = None ->
  Dict.get c files = None ->
  ("WARNING: Column '" +:+ c +:+ "' not found in " +:+ directory)
    ∈ snd (Parquet.find_columns fs directory column_names files err).
Proof.
  revert files err.
  induction column_names as [|col rest IH]; intros files err Hin Htry Hget.
  - now apply elem_of_nil in Hin.
  - cbn [Parquet.find_columns].
    destruct (String.eqb_spec c col) as [->|Hne].
    + rewrite Htry, Hget. apply find_columns_err_kept.
      apply elem_of_app. right. apply list_elem_of_here.
    + apply IH.
      * apply elem_of_cons in Hin as [?|?]; [congruence | assumption].
      * exact Htry.
      * destruct (Parquet.try_extensions _ _ col _); [|exact Hget].
        rewrite dict_get_set.
        destruct (String.eqb_spec c col); [congruence | exact Hget].
Qed.

End FindColumns.

(** C10: when a directory is searched for an explicit, non-empty list of
    column names, each requested name is looked up as [<name>.mmf] first
    and as [<name>.bt] second: if the [.mmf] file exists it is the one
    recorded, whether or not the [.bt] file exists too; the [.bt] file is
    recorded only when the [.mmf] file does not exist; a name with neither
    file is reported in a warning and has no entry in the result. *)
Theorem find_mmf_files_prefers_mmf (fs : filesystem) (directory : string)
  (column_names : list string) (col : string)
  (Hdir : is_dir fs directory = true)
  (Hnames : column_names <> [])
  (Hcol : col ∈ column_names) :
  exists files err,
    Parquet.find_mmf_files fs directory (Some column_names) = (err, Ok files)
    /\ (path_exists fs (os_path_join directory (col +:+ ".mmf")) = true ->
        Dict.get col files = Some (os_path_join directory (col +:+ ".mmf")))
    /\ (path_exists fs (os_path_join directory (col +:+ ".mmf")) = false ->
        path_exists fs (os_path_join directory (col +:+ ".bt")) = true ->
        Dict.get col files = Some (os_path_join directory (col +:+ ".bt")))
    /\ (path_exists fs (os_path_join directory (col +:+ ".mmf")) = false ->
        path_exists fs (os_path_join directory (col +:+ ".bt")) = false ->
        Dict.get col files = None
        /\ ("WARNING: Column '" +:+ col +:+ "' not found in " +:+ directory)
             ∈ err).
Proof.
  unfold Parquet.find_mmf_files. rewrite Hdir. cbn [negb].
  destruct column_names as [|c0 rest]; [congruence|].
  destruct (Parquet.find_columns fs directory (c0 :: rest) [] []) as [files err]
    eqn:Hfind.
  exists files, err. split; [reflexivity|].
  assert (Hget := find_columns_get fs directory (c0 :: rest) [] [] col).
  rewrite Hfind, (bool_decide_eq_true_2 _ Hcol) in Hget. cbn [fst Dict.get] in Hget.
  assert (Hwarn := find_columns_warns fs directory (c0 :: rest) [] [] col Hcol).
  rewrite Hfind in Hwarn. cbn [snd] in Hwarn.
  cbn [Parquet.try_extensions] in Hget, Hwarn.
  split; [|split].
  - intros Hm. now rewrite Hm in Hget.
  - intros Hm Hb. now rewrite Hm, Hb in Hget.
  - intros Hm Hb. rewrite Hm, Hb in Hget, Hwarn. split; [exact Hget|].
    now apply Hwarn.
Qed.

Lemma find_mmf_files_prefers_mmf_witness :
  exists files err,
    Parquet.find_mmf_files sample_fs "d" (Some ["Time"; "Open"; "B"]%string)
    = (err, Ok files)
    /\ Dict.get "Time" files = Some "d/Time.mmf"%string.
Proof.
  destruct (find_mmf_files_prefers_mmf sample_fs "d"
              ["Time"; "Open"; "B"]%string "Time"
              eq_refl ltac:(discriminate) ltac:(apply list_elem_of_here))
    as (files & err & Hfind & Hmmf & _).
  exists files, err. split; [exact Hfind | exact (Hmmf eq_refl)].
Defined.

(** ** Merging columns *)

Lemma lookup_map {A B : Type} (f : A -> B) (l : list A) (i : nat) :
  map f l !! i = f <$> (l !! i).
Proof. exact (list_lookup_fmap f l i). Qed.

Lemma elem_of_map {A B : Type} (f : A -> B) (l : list A) (x : A) :
  x ∈ l -> f x ∈ map f l.
Proof. exact (list_elem_of_fmap_2 f l x). Qed.

Lemma series_len_le_max (columns : list (string * Parquet.Series))
      (i : nat) (key : string) (s : Parquet.Series) :
  columns !! i = Some (key, s) ->
  (Parquet.series_len s <= Parquet.max_len columns)%nat.
Proof.
  unfold Parquet.max_len. revert i.
  induction columns as [|[k0 s0] columns IH]; intros i Hi;
    [discriminate|].
  cbn [map foldr snd]. destruct i as [|i]; cbn in Hi.
  - injection Hi as _ ->. lia.
  - specialize (IH _ Hi). lia.
Qed.

(** Two members that differ make a list with more than one distinct
    element. *)
Lemma two_distinct (l : list nat) (x y : nat) :
  x ∈ l -> y ∈ l -> x <> y -> (1 < length (remove_dups l))%nat.
Proof.
  intros Hx Hy Hne.
  apply elem_of_remove_dups in Hx. apply elem_of_remove_dups in Hy.
  destruct (remove_dups l) as [|a [|b r]]; cbn [length]; [| |lia].
  - now apply elem_of_nil in Hx.
  - apply list_elem_of_singleton in Hx. apply list_elem_of_singleton in Hy.
    congruence.
Qed.

Lemma lengths_differ_intro (columns : list (string * Parquet.Series))
      (i j : nat) (ka kb : string) (sa sb : Parquet.Series) :
  columns !! i = Some (ka, sa) -> columns !! j = Some (kb, sb) ->
  Parquet.series_len sa <> Parquet.series_len sb ->
  Parquet.lengths_differ columns = true.
Proof.
  intros Ha Hb Hne. unfold Parquet.lengths_differ. apply Nat.ltb_lt.
  apply (two_distinct _ (Parquet.series_len sa) (Parquet.series_len sb));
    [| |exact Hne].
  - exact (elem_of_map (fun kv => Parquet.series_len (snd kv)) _ _
             (list_elem_of_lookup_2 _ _ _ Ha)).
  - exact (elem_of_map (fun kv => Parquet.series_len (snd kv)) _ _
             (list_elem_of_lookup_2 _ _ _ Hb)).
Qed.

(** The table built from the columns, column by column. *)
Lemma pd_DataFrame_column (columns : list (string * Parquet.Series))
      (i : nat) (key : string) (s : Parquet.Series) :
  columns !! i = Some (key, s) ->
  exists c,
    Parquet.pd_DataFrame columns !! i = Some c
    /\ Parquet.col_name c = key
    /\ length (Parquet.cells c) = Parquet.max_len columns
    /\ (forall j v,
          Reader.elems (Parquet.data s) !! j = Some v ->
          Parquet.cells c !! j
          = Some (Parquet.cell_of (Reader.dtype (Parquet.data s)) v))
    /\ (forall j,
          (Parquet.series_len s <= j < Parquet.max_len columns)%nat ->
          Parquet.cells c !! j
          = Some (Parquet.missing (Reader.dtype (Parquet.data s)))).
Proof.
  intros Hi. pose proof (series_len_le_max _ _ _ _ Hi) as Hle.
  unfold Parquet.pd_DataFrame. cbv zeta. rewrite lookup_map, Hi. cbn [fmap option_fmap option_map].
  eexists. split; [reflexivity|].
  unfold Parquet.series_len in *.
  destruct (Nat.eqb_spec (length (Reader.elems (Parquet.data s)))
                         (Parquet.max_len columns)) as [E|E];
    cbn [Parquet.col_name Parquet.cells].
  - split; [reflexivity|]. split; [now rewrite length_map|]. split.
    + intros j v Hj. now rewrite lookup_map, Hj.
    + intros j Hj. lia.
  - split; [reflexivity|]. split.
    { rewrite length_app, length_map, length_replicate. lia. }
    split.
    + intros j v Hj. rewrite lookup_app_l.
      * now rewrite lookup_map, Hj.
      * rewrite length_map. exact (lookup_lt_Some _ _ _ Hj).
    + intros j Hj. rewrite lookup_app_r by (rewrite length_map; lia).
      rewrite length_map. apply lookup_replicate_2. lia.
Qed.

Lemma pd_DataFrame_names (columns : list (string * Parquet.Series)) :
  map Parquet.col_name (Parquet.pd_DataFrame columns) = Dict.keys columns.
Proof.
  unfold Parquet.pd_DataFrame, Dict.keys. cbv zeta. rewrite map_map.
  apply map_ext. intros [key s]. cbn [fst]. now destruct (_ =? _)%nat.
Qed.

Lemma pd_DataFrame_nrows (columns : list (string * Parquet.Series)) :
  columns <> [] ->
  Parquet.nrows (Parquet.pd_DataFrame columns) = Parquet.max_len columns.
Proof.
  intros Hne. destruct columns as [|[key s] rest] eqn:E; [congruence|].
  destruct (pd_DataFrame_column ((key, s) :: rest) 0 key s eq_refl)
    as (c & Hc & _ & Hlen & _).
  destruct (Parquet.pd_DataFrame ((key, s) :: rest)) as [|c0 df];
    [discriminate|].
  injection Hc as ->. exact Hlen.
Qed.

(** C4: when every column file is read and the columns read are not all
    of one length, [convert_to_parquet] returns a table and does not raise;
    the table has the columns' names in their order, its length is the
    greatest column length, each column keeps its own elements and holds
    the missing-value sentinel of its element type in the cells beyond
    them; the length-mismatch warning is on standard error. *)
Theorem merge_pads_short_columns (fs : filesystem)
  (files : list (string * string)) (err : Parquet.stderr)
  (columns : list (string * Parquet.Series)) (max_length : nat)
  (Hfiles : files <> [])
  (Hread : Parquet.read_columns fs files [] O [] = (err, Ok (columns, max_length)))
  (Hdiffer : exists i j ka kb sa sb,
               columns !! i = Some (ka, sa) /\ columns !! j = Some (kb, sb)
               /\ Parquet.series_len sa <> Parquet.series_len sb) :
  exists df,
    Parquet.convert_to_parquet fs files
    = (err ++ Parquet.length_warning columns, Ok df)
    /\ "WARNING: Columns have different lengths:"%string
         ∈ err ++ Parquet.length_warning columns
    /\ Parquet.nrows df = Parquet.max_len columns
    /\ map Parquet.col_name df = Dict.keys columns
    /\ forall i key s,
         columns !! i = Some (key, s) ->
         exists c,
           df !! i = Some c
           /\ Parquet.col_name c = key
           /\ length (Parquet.cells c) = Parquet.max_len columns
           /\ (forall j v,
                 Reader.elems (Parquet.data s) !! j = Some v ->
                 Parquet.cells c !! j
                 = Some (Parquet.cell_of (Reader.dtype (Parquet.data s)) v))
           /\ (forall j,
                 (Parquet.series_len s <= j < Parquet.max_len columns)%nat ->
                 Parquet.cells c !! j
                 = Some (Parquet.missing (Reader.dtype (Parquet.data s)))).
Proof.
  destruct Hdiffer as (i & j & ka & kb & sa & sb & Ha & Hb & Hne).
  exists (Parquet.pd_DataFrame columns).
  unfold Parquet.convert_to_parquet.
  destruct files as [|f files']; [congruence|].
  rewrite Hread, (lengths_differ_intro _ _ _ _ _ _ _ Ha Hb Hne).
  split; [reflexivity|]. split.
  { apply elem_of_app. right. unfold Parquet.length_warning.
    apply elem_of_app. left. apply list_elem_of_here. }
  split.
  { apply pd_DataFrame_nrows. intros ->. discriminate. }
  split; [apply pd_DataFrame_names|].
  apply pd_DataFrame_column.
Qed.

Lemma merge_pads_short_columns_witness :
  exists df err,
    Parquet.convert_to_parquet sample_fs
      [("A", "d/A.bt"); ("B", "d/B.bt")]%string = (err, Ok df)
    /\ Parquet.nrows df = 10%nat
    /\ exists c, df !! 1%nat = Some c
                 /\ Parquet.cells c !! 7%nat = Some Parquet.NaN
                 /\ Parquet.cells c !! 9%nat = Some Parquet.NaN.
Proof.
  edestruct (merge_pads_short_columns sample_fs
               [("A", "d/A.bt"); ("B", "d/B.bt")]%string)
    as (df & Hconv & _ & Hrows & _ & Hcols).
  - discriminate.
  - vm_compute. reflexivity.
  - exists 0%nat, 1%nat. do 4 eexists.
    split; [reflexivity|]. split; [reflexivity|]. vm_compute. discriminate.
  - exists df. eexists. split; [exact Hconv|]. split; [exact Hrows|].
    destruct (Hcols 1%nat _ _ eq_refl) as (c & Hc & _ & _ & _ & Hpad).
    exists c. split; [exact Hc|].
    split; [exact (Hpad 7%nat ltac:(vm_compute; lia))
           | exact (Hpad 9%nat ltac:(vm_compute; lia))].
Defined.

(** ** Header decoding, further *)

Lemma byte_to_Z_bounds (b : byte) : 0 <= Bytes.byte_to_Z b < 256.
Proof.
  unfold Bytes.byte_to_Z. pose proof (Byte.to_N_bounded b). lia.
Qed.

Lemma byte_to_Z_inj (a b : byte) : Bytes.byte_to_Z a = Bytes.byte_to_Z b -> a = b.
Proof.
  unfold Bytes.byte_to_Z. intros H. apply N2Z.inj in H.
  pose proof (Byte.of_to_N a) as Ha. rewrite H, Byte.of_to_N in Ha.
  congruence.
Qed.

Lemma le_unsigned_bounds (bs : list byte) :
  0 <= Bytes.le_unsigned bs < 2 ^ (8 * Z.of_nat (length bs)).
Proof.
  induction bs as [|b bs IH]; cbn [Bytes.le_unsigned length].
  - cbn. lia.
  - replace (8 * Z.of_nat (S (length bs))) with (8 + 8 * Z.of_nat (length bs))
      by lia.
    rewrite Z.pow_add_r by lia. change (2 ^ 8) with 256.
    pose proof (byte_to_Z_bounds b). lia.
Qed.

Lemma le_unsigned_inj (a b : list byte) :
  length a = length b -> Bytes.le_unsigned a = Bytes.le_unsigned b -> a = b.
Proof.
  revert b. induction a as [|x a IH]; intros [|y b] Hlen; try discriminate.
  - reflexivity.
  - cbn [Bytes.le_unsigned]. intros H.
    pose proof (byte_to_Z_bounds x). pose proof (byte_to_Z_bounds y).
    assert (Bytes.byte_to_Z x = Bytes.byte_to_Z y
            /\ Bytes.le_unsigned a = Bytes.le_unsigned b) as [Hx Ha] by lia.
    f_equal; [now apply byte_to_Z_inj | apply IH; [now injection Hlen | exact Ha]].
Qed.

Lemma le_signed_inj (a b : list byte) :
  length a = length b -> Bytes.le_signed a = Bytes.le_signed b -> a = b.
Proof.
  intros Hlen. destruct a as [|x a]; [destruct b; [reflexivity|discriminate]|].
  unfold Bytes.le_signed. rewrite <- Hlen. intros H.
  apply le_unsigned_inj; [exact Hlen|].
  set (w := 8 * Z.of_nat (length (x :: a))) in *.
  assert (Hw : 0 < w) by (subst w; cbn [length]; lia).
  destruct (wrap_congruent w Hw (Bytes.le_unsigned (x :: a))) as [k1 H1].
  destruct (wrap_congruent w Hw (Bytes.le_unsigned b)) as [k2 H2].
  pose proof (le_unsigned_bounds (x :: a)) as Ba.
  pose proof (le_unsigned_bounds b) as Bb.
  rewrite <- Hlen in Bb. fold w in Ba, Bb.
  rewrite H1, H2 in H.
  assert (k1 = k2) by nia. subst k2. lia.
Qed.

Lemma le_signed_range (bs : list byte) :
  bs <> [] -> Int.in_range (8 * Z.of_nat (length bs)) (Bytes.le_signed bs).
Proof.
  intros Hne. apply wrap_in_range. destruct bs; [congruence|cbn [length]; lia].
Qed.

Lemma slice_length (i j : nat) (bs : list byte) :
  (j <= length bs)%nat -> length (Bytes.slice i j bs) = (j - i)%nat.
Proof.
  intros H. unfold Bytes.slice. rewrite length_firstn, length_skipn. lia.
Qed.

Lemma slices_cover (b : list byte) :
  length b = 16%nat ->
  b = Bytes.slice 0 4 b ++ Bytes.slice 4 8 b ++ Bytes.slice 8 16 b.
Proof.
  intros H. do 17 (destruct b as [|? b]; try discriminate). reflexivity.
Qed.

(** On exactly 16 bytes the decoder always answers, with fields in
    range. *)
Lemma unpack_iiq_defined (b : list byte) :
  length b = 16%nat ->
  exists v d c,
    Bytes.unpack_iiq b = Some (v, d, c)
    /\ Int.is_int32 v /\ Int.is_int32 d /\ Int.is_int64 c.
Proof.
  intros H. unfold Bytes.unpack_iiq. rewrite H. cbn [Nat.eqb].
  do 3 eexists. split; [reflexivity|].
  unfold Int.is_int32, Int.is_int64, Bytes.le_signed.
  rewrite !slice_length by lia.
  split; [|split]; apply wrap_in_range; lia.
Qed.

(** X3: the header decoder [struct.unpack('<iiq', _)] loses nothing: two
    buffers that decode to the same version, type code and count are the
    same 16 bytes. *)
Theorem unpack_iiq_injective (b1 b2 : list byte) (h : Z * Z * Z)
  (H1 : Bytes.unpack_iiq b1 = Some h) (H2 : Bytes.unpack_iiq b2 = Some h) :
  b1 = b2.
Proof.
  unfold Bytes.unpack_iiq in H1, H2.
  destruct (Nat.eqb_spec (length b1) 16) as [L1|]; [|discriminate].
  destruct (Nat.eqb_spec (length b2) 16) as [L2|]; [|discriminate].
  rewrite <- H2 in H1. injection H1 as Hv Hd Hc.
  rewrite (slices_cover b1 L1), (slices_cover b2 L2).
  f_equal; [|f_equal]; apply le_signed_inj; try assumption;
    rewrite !slice_length; lia.
Qed.

Lemma unpack_iiq_injective_witness :
  Bytes.pack_iiq 1 12 3 = Bytes.pack_iiq 1 12 3.
Proof.
  exact (unpack_iiq_injective (Bytes.pack_iiq 1 12 3) (Bytes.pack_iiq 1 12 3)
           (1, 12, 3) eq_refl eq_refl).
Defined.

(** ** Reader, further *)

Lemma dtype_map_codes (code : Z) (d : Reader.np_dtype) :
  Reader.DTYPE_MAP code = Some d -> 2 <= code <= 13.
Proof. code_cases code; cbn; intros; try discriminate; lia. Qed.

Lemma str_of_header_size : str_of_int Reader.HEADER_SIZE = "16"%string.
Proof. reflexivity. Qed.

(** X1: [read_header] accepts a file for its length alone: it returns a
    header exactly when the path names a readable file of at least 16
    bytes, whatever these bytes are; every failure is a
    [ListMmfReadError]. *)
Theorem read_header_succeeds_iff (fs : filesystem) (filepath : string) :
  ((exists h, Reader.read_header fs filepath = Ok h)
   <-> exists data, fs_node fs filepath = Some (Regular data)
                    /\ (16 <= length data)%nat)
  /\ (forall e, Reader.read_header fs filepath = Raise e ->
                exists msg, e = ListMmfReadError msg)
  /\ (path_exists fs filepath = false ->
      Reader.read_header fs filepath
      = Raise (ListMmfReadError ("File not found: " +:+ filepath)))
  /\ (forall data, fs_node fs filepath = Some (Regular data) ->
      (length data < 16)%nat ->
      Reader.read_header fs filepath
      = Raise (ListMmfReadError
                 ("File too small (< 16 bytes): " +:+ filepath))).
Proof.
  unfold Reader.read_header, path_exists, Reader.HEADER_SIZE.
  destruct (fs_node fs filepath) as [[e|size e|data]|];
    cbn [node_size node_read].
  - split; [split; [intros [h H]; discriminate | intros (d & H & _); discriminate]|].
    split; [intros e0 [= <-]; eauto|]. split; [reflexivity|]. discriminate.
  - split.
    { split; [|intros (d & H & _); discriminate].
      intros [h H]. destruct (size <? 16); discriminate. }
    split; [intros e0; destruct (size <? 16); intros [= <-]; eauto|].
    split; discriminate.
  - change (Z.to_nat 16) with 16%nat.
    destruct (Z.ltb_spec (Z.of_nat (length data)) 16) as [Hs|Hs].
    + split; [split; [intros [h H]; discriminate
                     | intros (d & [= <-] & Hl); lia]|].
      split; [intros e0 [= <-]; eauto|]. split; [discriminate|].
      intros d [= <-] _. reflexivity.
    + destruct (unpack_iiq_defined (firstn 16 data)) as (v & d & c & -> & _).
      { rewrite length_firstn. lia. }
      split; [split; [intros _; exists data; split; [reflexivity|lia]
                     | intros _; eauto]|].
      split; [discriminate|]. split; [discriminate|].
      intros d0 [= <-] Hl. lia.
  - split; [split; [intros [h H]; discriminate | intros (d & H & _); discriminate]|].
    split; [intros e0 [= <-]; eauto|]. split; [reflexivity|]. discriminate.
Qed.

Lemma read_header_succeeds_iff_witness :
  Reader.read_header sample_fs "d/Missing.bt"
  = Raise (ListMmfReadError "File not found: d/Missing.bt").
Proof.
  exact (proj1 (proj2 (proj2 (read_header_succeeds_iff sample_fs "d/Missing.bt")))
           eq_refl).
Defined.

(** X2: the fields of a decoded header are within their C types, int32
    for the version and the type code and int64 for the count, and its
    name is the registry's name of the code or, for a code outside 0..21,
    the text [Unknown(<code>)]: naming never fails. *)
Theorem read_header_fields (fs : filesystem) (filepath : string)
  (h : Reader.ListMmfHeader) (Hh : Reader.read_header fs filepath = Ok h) :
  Int.is_int32 (Reader.version h)
  /\ Int.is_int32 (Reader.datatype h)
  /\ Int.is_int64 (Reader.count h)
  /\ (0 <= Reader.datatype h <= 21 ->
      Reader.DATA_TYPE_NAMES (Reader.datatype h) = Some (Reader.datatype_name h))
  /\ (Reader.datatype h < 0 \/ 21 < Reader.datatype h ->
      Reader.datatype_name h
      = "Unknown(" +:+ str_of_int (Reader.datatype h) +:+ ")").
Proof.
  pose proof (read_header_name _ _ _ Hh) as Hname.
  assert (Hr : Int.is_int32 (Reader.version h)
               /\ Int.is_int32 (Reader.datatype h)
               /\ Int.is_int64 (Reader.count h)).
  { revert Hh. unfold Reader.read_header, Reader.HEADER_SIZE.
    destruct (fs_node fs filepath) as [[e|size e|data]|]; try discriminate;
      cbn [node_size node_read].
    - destruct (size <? 16); discriminate.
    - change (Z.to_nat 16) with 16%nat.
      destruct (Z.ltb_spec (Z.of_nat (length data)) 16) as [Hs|Hs];
        [discriminate|].
      destruct (unpack_iiq_defined (firstn 16 data))
        as (v & d & c & -> & Hv & Hd & Hc).
      { rewrite length_firstn. lia. }
      intros [= <-]. cbn. auto. }
  destruct Hr as (Hv & Hd & Hc). repeat (split; [assumption|]).
  split.
  - intros Hcode. rewrite Hname. revert Hcode.
    generalize (Reader.datatype h) as code. intros code.
    code_cases code; cbn; intros; try lia; reflexivity.
  - intros Hcode. rewrite Hname. revert Hcode.
    generalize (Reader.datatype h) as code. intros code.
    code_cases code; cbn; intros; try lia; reflexivity.
Qed.

Lemma read_header_fields_witness :
  exists h, Reader.read_header sample_fs "d/A.bt" = Ok h
            /\ Int.is_int64 (Reader.count h).
Proof.
  eexists. split; [reflexivity|].
  exact (proj1 (proj2 (proj2 (read_header_fields sample_fs "d/A.bt" _ eq_refl)))).
Defined.

(** X4: the reader's and the scanner's [read_header] agree on every
    path: the scanner gets a header exactly when the reader does, with the
    same version, type code and count. *)
Theorem header_readers_agree (fs : filesystem) (filepath : string) (n : node)
  (Hn : fs_node fs filepath = Some n) :
  (forall lines info,
     Scan.read_header filepath n = (lines, Some info) ->
     exists h, Reader.read_header fs filepath = Ok h
               /\ Reader.version h = Scan.version info
               /\ Reader.datatype h = Scan.data_type info
               /\ Reader.count h = Scan.count info)
  /\ (forall lines,
        Scan.read_header filepath n = (lines, None) ->
        exists msg, Reader.read_header fs filepath
                    = Raise (ListMmfReadError msg)).
Proof.
  unfold Reader.read_header, Scan.read_header, Reader.HEADER_SIZE,
    Scan.LISTMMF_HEADER_SIZE.
  rewrite Hn. destruct n as [e|size e|data]; cbn [node_size node_read].
  - split; [discriminate | eauto].
  - destruct (size <? 16); (split; [discriminate | eauto]).
  - destruct (Z.of_nat (length data) <? 16); [split; [discriminate | eauto]|].
    destruct (Bytes.unpack_iiq _) as [[[v d] c]|].
    + split; [|discriminate]. intros lines info [= _ <-].
      eexists. split; [reflexivity|]. cbn. auto.
    + split; [discriminate | eauto].
Qed.

Lemma header_readers_agree_witness :
  exists h, Reader.read_header sample_fs "d/B.bt" = Ok h
            /\ Reader.count h = 7.
Proof.
  destruct (proj1 (header_readers_agree sample_fs "d/B.bt" _ eq_refl) [] _ eq_refl)
    as (h & Hh & _ & _ & Hc).
  exists h. split; [exact Hh | exact Hc].
Defined.

Lemma decode_elems_length (d : Reader.np_dtype) (n : nat) (bs : list byte) :
  length (Reader.decode_elems d n bs) = n.
Proof.
  revert bs. induction n as [|n IH]; intros bs; cbn; [|rewrite IH]; reflexivity.
Qed.

Lemma itemsize_pos (d : Reader.np_dtype) : (0 < Reader.itemsize d)%nat.
Proof. destruct d; cbn; lia. Qed.

Lemma decode_elem_holds (d : Reader.np_dtype) (bs : list byte) :
  length bs = Reader.itemsize d -> dtype_holds d (Reader.decode_elem d bs).
Proof.
  intros Hlen. unfold dtype_holds, Reader.decode_elem.
  pose proof (itemsize_pos d) as Hpos.
  destruct (Reader.is_signed d).
  - rewrite <- Hlen. apply le_signed_range. destruct bs; [cbn in Hlen; lia|discriminate].
  - rewrite <- Hlen. apply le_unsigned_bounds.
Qed.

(** Every element read from within the file is a value of the type. *)
Lemma decode_elems_hold (d : Reader.np_dtype) (n : nat) (bs : list byte) :
  (n * Reader.itemsize d <= length bs)%nat ->
  Forall (dtype_holds d) (Reader.decode_elems d n bs).
Proof.
  revert bs. induction n as [|n IH]; intros bs Hlen; cbn [Reader.decode_elems].
  - constructor.
  - constructor.
    + apply decode_elem_holds. rewrite length_firstn. lia.
    + apply IH. rewrite length_skipn. lia.
Qed.

(** When [read_listmmf] returns, and what. *)
Lemma read_listmmf_ok (fs : filesystem) (filepath : string)
  (copy : bool) (data : Reader.ndarray) :
  Reader.read_listmmf fs filepath copy = Ok data
  <-> exists h bytes d,
       Reader.read_header fs filepath = Ok h
       /\ fs_node fs filepath = Some (Regular bytes)
       /\ Reader.DTYPE_MAP (Reader.datatype h) = Some d
       /\ 0 <= Reader.count h
       /\ 16 + Reader.count h * Z.of_nat (Reader.itemsize d)
          <= Z.of_nat (length bytes)
       /\ data = {| Reader.dtype := d;
                    Reader.elems :=
                      Reader.decode_elems d (Z.to_nat (Reader.count h))
                                          (skipn 16 bytes) |}.
Proof.
  unfold Reader.read_listmmf, Reader.HEADER_SIZE. split.
  - destruct (Reader.read_header fs filepath) as [h|] eqn:Hh; [|discriminate].
    destruct (bool_decide _); [discriminate|].
    destruct (_ =? 0); [discriminate|]. destruct (_ =? 1); [discriminate|].
    destruct (Reader.DTYPE_MAP _) as [d|] eqn:Hd; [|discriminate].
    destruct (fs_node fs filepath) as [[e|size e|bytes]|];
      cbn [Reader.np_memmap]; try discriminate.
    destruct (Z.ltb_spec (Reader.count h) 0); [discriminate|].
    destruct (Z.ltb_spec (Z.of_nat (length bytes))
                (16 + Reader.count h * Z.of_nat (Reader.itemsize d)));
      [discriminate|].
    change (Z.to_nat 16) with 16%nat.
    intros Hok. exists h, bytes, d.
    repeat (split; [first [reflexivity | assumption | lia]|]).
    destruct copy; now injection Hok as <-.
  - intros (h & bytes & d & -> & -> & Hd & Hc & Hlen & ->).
    pose proof (dtype_map_codes _ _ Hd) as Hcode.
    rewrite bool_decide_eq_false_2
      by (rewrite reader_odd_byte_codes; lia).
    destruct (Z.eqb_spec (Reader.datatype h) 0); [lia|].
    destruct (Z.eqb_spec (Reader.datatype h) 1); [lia|].
    rewrite Hd. cbn [Reader.np_memmap].
    destruct (Z.ltb_spec (Reader.count h) 0); [lia|].
    destruct (Z.ltb_spec (Z.of_nat (length bytes))
                (16 + Reader.count h * Z.of_nat (Reader.itemsize d)));
      [lia|].
    now destruct copy.
Qed.

(** X5: [read_listmmf] returns an array exactly when the header decodes,
    its type code is one of the decodable codes 2..13, its count is not
    negative and the file holds the 16 header bytes and [count] elements
    of the type's width; the array then has the type [DTYPE_MAP] gives the
    code and exactly [count] elements, each a value of that type decoded
    from within the file. *)
Theorem read_listmmf_succeeds_iff (fs : filesystem) (filepath : string)
  (copy : bool) (data : Reader.ndarray) :
  (Reader.read_listmmf fs filepath copy = Ok data
   <-> exists h bytes d,
         Reader.read_header fs filepath = Ok h
         /\ fs_node fs filepath = Some (Regular bytes)
         /\ Reader.DTYPE_MAP (Reader.datatype h) = Some d
         /\ 0 <= Reader.count h
         /\ 16 + Reader.count h * Z.of_nat (Reader.itemsize d)
            <= Z.of_nat (length bytes)
         /\ data = {| Reader.dtype := d;
                      Reader.elems :=
                        Reader.decode_elems d (Z.to_nat (Reader.count h))
                                            (skipn 16 bytes) |})
  /\ (Reader.read_listmmf fs filepath copy = Ok data ->
      exists h, Reader.read_header fs filepath = Ok h
                /\ 2 <= Reader.datatype h <= 13
                /\ Z.of_nat (length (Reader.elems data)) = Reader.count h
                /\ Forall (dtype_holds (Reader.dtype data)) (Reader.elems data)).
Proof.
  pose proof (read_listmmf_ok fs filepath copy data) as Hiff.
  split; [exact Hiff|].
  intros H. apply Hiff in H as (h & bytes & d & Hh & _ & Hd & Hc & Hlen & ->).
  exists h. split; [exact Hh|]. split; [exact (dtype_map_codes _ _ Hd)|].
  cbn [Reader.elems Reader.dtype]. split.
  - rewrite decode_elems_length. lia.
  - apply decode_elems_hold. rewrite length_skipn. nia.
Qed.

Lemma read_listmmf_succeeds_iff_witness :
  exists h, Reader.read_header sample_fs "d/B.bt" = Ok h
            /\ 2 <= Reader.datatype h <= 13
            /\ Reader.count h = 7.
Proof.
  destruct (proj2 (read_listmmf_succeeds_iff sample_fs "d/B.bt" false
                     {| Reader.dtype := Reader.int32;
                        Reader.elems := [-1; -2; -3; -4; -5; -6; -7] |})
                  eq_refl)
    as (h & Hh & Hcode & Hlen & _).
  exists h. split; [exact Hh|]. split; [exact Hcode|]. now rewrite <- Hlen.
Defined.

(** X6: a header that decodes but declares the struct code 0, the
    bit-packed code 1 or a code outside 0..21 makes [read_listmmf] raise
    [ListMmfReadError], with the struct message, the bit-array message and
    the unsupported-type message naming [Unknown(<code>)]. *)
Theorem read_listmmf_rejects_undecodable (fs : filesystem) (filepath : string)
  (copy : bool) (h : Reader.ListMmfHeader)
  (Hh : Reader.read_header fs filepath = Ok h) :
  (Reader.datatype h = 0 ->
   Reader.read_listmmf fs filepath copy
   = Raise (ListMmfReadError "Cannot read AnyStruct files (DataType=0)"))
  /\ (Reader.datatype h = 1 ->
      Reader.read_listmmf fs filepath copy
      = Raise (ListMmfReadError
                 ("BitArray files require special handling (not yet implemented). "
                  +:+ "Use the C# library or implement bit unpacking.")))
  /\ (Reader.datatype h < 0 \/ 21 < Reader.datatype h ->
      Reader.read_listmmf fs filepath copy
      = Raise (ListMmfReadError
                 ("Unsupported DataType: Unknown("
                  +:+ str_of_int (Reader.datatype h) +:+ ")"))).
Proof.
  pose proof (read_header_name _ _ _ Hh) as Hname.
  unfold Reader.read_listmmf. rewrite Hh.
  split; [|split].
  - intros E. rewrite E. reflexivity.
  - intros E. rewrite E. reflexivity.
  - intros Hcode.
    rewrite bool_decide_eq_false_2 by (rewrite reader_odd_byte_codes; lia).
    destruct (Z.eqb_spec (Reader.datatype h) 0); [lia|].
    destruct (Z.eqb_spec (Reader.datatype h) 1); [lia|].
    assert (Hnone : Reader.DTYPE_MAP (Reader.datatype h) = None).
    { destruct (Reader.DTYPE_MAP _) as [d|] eqn:Hd; [|reflexivity].
      apply dtype_map_codes in Hd. lia. }
    assert (Hn : Reader.DATA_TYPE_NAMES (Reader.datatype h) = None).
    { revert Hcode. generalize (Reader.datatype h). intros code.
      code_cases code; cbn; intros; try lia; reflexivity. }
    rewrite Hnone, Hname, Hn. reflexivity.
Qed.

Lemma read_listmmf_rejects_undecodable_witness :
  Reader.read_listmmf (one_file_fs "Flags.bt" (blank_file 1 5 1)) "Flags.bt" true
  = Raise (ListMmfReadError
             ("BitArray files require special handling (not yet implemented). "
              +:+ "Use the C# library or implement bit unpacking.")).
Proof.
  exact (proj1 (proj2 (read_listmmf_rejects_undecodable
                         (one_file_fs "Flags.bt" (blank_file 1 5 1)) "Flags.bt"
                         true _ eq_refl)) eq_refl).
Defined.

Lemma decode_elem_bytes (d : Reader.np_dtype) (v : Z) :
  dtype_holds d v ->
  Reader.decode_elem d (Bytes.le_bytes (Reader.itemsize d) v) = v.
Proof.
  unfold dtype_holds, Reader.decode_elem. pose proof (itemsize_pos d).
  destruct (Reader.is_signed d); intros Hv.
  - apply le_signed_bytes; assumption.
  - rewrite le_unsigned_bytes. apply Z.mod_small. exact Hv.
Qed.

Lemma decode_elems_payload (d : Reader.np_dtype) (vals : list Z)
      (rest : list byte) :
  Forall (dtype_holds d) vals ->
  Reader.decode_elems d (length vals) (payload d vals ++ rest) = vals.
Proof.
  unfold payload. induction 1 as [|v vals Hv _ IH]; [reflexivity|].
  cbn [length flat_map Reader.decode_elems]. rewrite <- app_assoc.
  rewrite firstn_app, le_bytes_length, Nat.sub_diag. cbn [firstn].
  rewrite app_nil_r, firstn_all2 by (rewrite le_bytes_length; lia).
  rewrite skipn_app, le_bytes_length, Nat.sub_diag, skipn_O.
  rewrite skipn_all2 by (rewrite le_bytes_length; lia). cbn [app].
  now rewrite IH, decode_elem_bytes.
Qed.

Lemma payload_length (d : Reader.np_dtype) (vals : list Z) :
  length (payload d vals) = (length vals * Reader.itemsize d)%nat.
Proof.
  unfold payload. induction vals as [|v vals IH]; [reflexivity|].
  cbn [flat_map length]. rewrite length_app, le_bytes_length, IH. lia.
Qed.

(** X7: reading gives back what the layout holds: from a file made of a
    header with a decodable type code and the count of the values,
    followed by the values in little-endian order at the type's width (and
    by anything after them), [read_listmmf] returns exactly the values,
    with the type of the code. *)
Theorem read_listmmf_returns_elements (fs : filesystem) (filepath : string)
  (copy : bool) (v code : Z) (d : Reader.np_dtype) (vals : list Z)
  (trailing : list byte)
  (Hd : Reader.DTYPE_MAP code = Some d)
  (Hv : Int.is_int32 v)
  (Hcount : Int.is_int64 (Z.of_nat (length vals)))
  (Hvals : Forall (dtype_holds d) vals)
  (Hfile : fs_node fs filepath
           = Some (Regular (Bytes.pack_iiq v code (Z.of_nat (length vals))
                            ++ payload d vals ++ trailing))) :
  Reader.read_listmmf fs filepath copy
  = Ok {| Reader.dtype := d; Reader.elems := vals |}.
Proof.
  pose proof (dtype_map_codes _ _ Hd) as Hcode.
  assert (Hc32 : Int.is_int32 code).
  { unfold Int.is_int32, Int.in_range, Int.min_signed, Int.max_signed.
    change (2 ^ (32 - 1)) with 2147483648. lia. }
  unfold Reader.read_listmmf, Reader.read_header, Reader.HEADER_SIZE.
  rewrite Hfile. cbn [node_size node_read Reader.np_memmap].
  rewrite !length_app, pack_iiq_length, payload_length.
  destruct (Z.ltb_spec (Z.of_nat (16 + (length vals * Reader.itemsize d
                                        + length trailing))) 16); [lia|].
  change (Z.to_nat 16) with 16%nat.
  rewrite header_prefix, unpack_pack by assumption.
  cbn [Reader.datatype Reader.count Reader.datatype_name].
  rewrite bool_decide_eq_false_2 by (rewrite reader_odd_byte_codes; lia).
  destruct (Z.eqb_spec code 0); [lia|]. destruct (Z.eqb_spec code 1); [lia|].
  rewrite Hd.
  destruct (Z.ltb_spec (Z.of_nat (length vals)) 0); [lia|].
  destruct (Z.ltb_spec
              (Z.of_nat (16 + (length vals * Reader.itemsize d
                               + length trailing)))
              (16 + Z.of_nat (length vals) * Z.of_nat (Reader.itemsize d)));
    [lia|].
  rewrite Nat2Z.id, skipn_app, pack_iiq_length, Nat.sub_diag, skipn_O.
  rewrite skipn_all2 by (rewrite pack_iiq_length; lia). cbn [app].
  rewrite decode_elems_payload by exact Hvals.
  now destruct copy.
Qed.

Lemma read_listmmf_returns_elements_witness :
  Reader.read_listmmf
    (one_file_fs "Low.bt"
       (Regular (Bytes.pack_iiq 1 4 3 ++ payload Reader.int16 [-2; 0; 32767] ++ [])))
    "Low.bt" false
  = Ok {| Reader.dtype := Reader.int16; Reader.elems := [-2; 0; 32767] |}.
Proof.
  apply (read_listmmf_returns_elements _ "Low.bt" false 1 4 Reader.int16
           [-2; 0; 32767] []).
  - reflexivity.
  - vm_compute; split; discriminate.
  - vm_compute; split; discriminate.
  - repeat (apply List.Forall_cons; [vm_compute; split; discriminate|]).
    apply List.Forall_nil.
  - reflexivity.
Defined.

(** ** Epoch conversion, further *)

(** X8: [convert_unixseconds] is exact on every int32 count of seconds:
    the element is the count times 10^9 nanoseconds, never NaT, and a
    later second gives a later instant. *)
Theorem convert_unixseconds_exact (seconds : Reader.ndarray)
  (Hsec : Forall Int.is_int32 (Reader.elems seconds)) :
  map Reader.datetime64_value
      (Reader.elems (Reader.convert_unixseconds seconds))
  = map (fun s => Some (s * 1000000000)) (Reader.elems seconds)
  /\ Reader.dtype (Reader.convert_unixseconds seconds) = Reader.datetime64_ns
  /\ length (Reader.elems (Reader.convert_unixseconds seconds))
     = length (Reader.elems seconds).
Proof.
  unfold Reader.convert_unixseconds; cbn [Reader.elems Reader.dtype].
  split; [|split; [reflexivity | apply length_map]].
  induction Hsec as [|s l Hs _ IH]; [reflexivity|].
  cbn [map]. rewrite IH. f_equal.
  unfold Int.is_int32, Int.in_range, Int.min_signed, Int.max_signed in Hs.
  change (2 ^ (32 - 1)) with 2147483648 in Hs.
  assert (Hfit : Int.is_int64 (s * 1000000000)).
  { unfold Int.is_int64, Int.in_range, Int.min_signed, Int.max_signed.
    change (2 ^ (64 - 1)) with 9223372036854775808. lia. }
  rewrite (proj2 (wrap64_fixed_iff _) Hfit).
  unfold Reader.datetime64_value, Int.min_signed.
  change (2 ^ (64 - 1)) with 9223372036854775808.
  destruct (Z.eqb_spec (s * 1000000000) (- (9223372036854775808)));
    [lia|reflexivity].
Qed.

Lemma convert_unixseconds_exact_witness :
  map Reader.datetime64_value
      (Reader.elems (Reader.convert_unixseconds
         {| Reader.dtype := Reader.int32;
            Reader.elems := [0; -2147483648; 2147483647] |}))
  = [Some 0; Some (-2147483648000000000); Some 2147483647000000000].
Proof.
  refine (proj1 (convert_unixseconds_exact
    {| Reader.dtype := Reader.int32;
       Reader.elems := [0; -2147483648; 2147483647] |} _)).
  cbn [Reader.elems].
  repeat (apply List.Forall_cons; [vm_compute; split; discriminate|]).
  apply List.Forall_nil.
Defined.

(** X9: within the range where the tick conversion is exact it keeps
    the order of instants, strictly, and every result is a whole multiple
    of 100 ns. *)
Theorem unix_ns_monotone (t1 t2 : Z)
  (H1 : Int.is_int64 ((t1 - 621355968000000000) * 100))
  (H2 : Int.is_int64 ((t2 - 621355968000000000) * 100)) :
  (t1 < t2 <-> Reader.unix_ns t1 < Reader.unix_ns t2)
  /\ (t1 = t2 <-> Reader.unix_ns t1 = Reader.unix_ns t2)
  /\ Reader.unix_ns t1 mod 100 = 0.
Proof.
  rewrite (unix_ns_exact t1 H1), (unix_ns_exact t2 H2).
  change Reader.DOTNET_TO_UNIX_TICKS with 621355968000000000.
  split; [lia|]. split; [lia|]. apply Z.mod_mul. lia.
Qed.

Lemma unix_ns_monotone_witness :
  621355968000000000 < 621355968000000001
  <-> Reader.unix_ns 621355968000000000 < Reader.unix_ns 621355968000000001.
Proof.
  refine (proj1 (unix_ns_monotone 621355968000000000 621355968000000001 _ _));
    vm_compute; split; discriminate.
Defined.

(** Outside that range order is not kept: a later tick count can convert
    to an earlier instant. *)
Lemma unix_ns_wraps_backwards :
  Reader.unix_ns (621355968000000000 + 92233720368547759)
  < Reader.unix_ns (621355968000000000 + 92233720368547758).
Proof. vm_compute. reflexivity. Qed.

(** ** Reading with time conversion *)

Lemma dtype_map_not_datetime (code : Z) :
  Reader.DTYPE_MAP code <> Some Reader.datetime64_ns.
Proof. code_cases code; cbn; discriminate. Qed.

Lemma read_header_raises (fs : filesystem) (filepath : string) (e : exn) :
  Reader.read_header fs filepath = Raise e -> exists msg, e = ListMmfReadError msg.
Proof.
  unfold Reader.read_header.
  destruct (fs_node fs filepath) as [[e0|size e0|data]|];
    try (intros [= <-]; eauto).
  - destruct (_ <? _); intros [= <-]; eauto.
  - destruct (_ <? _); [intros [= <-]; eauto|]. cbn [node_read].
    destruct (Bytes.unpack_iiq _) as [[[v d] c]|]; [discriminate|].
    intros [= <-]; eauto.
Qed.

Lemma read_listmmf_raises (fs : filesystem) (filepath : string) (copy : bool)
      (e : exn) :
  Reader.read_listmmf fs filepath copy = Raise e ->
  exists msg, e = ListMmfReadError msg.
Proof.
  unfold Reader.read_listmmf.
  destruct (Reader.read_header fs filepath) as [h|e0] eqn:Hh.
  - destruct (bool_decide _); [intros [= <-]; eauto|].
    destruct (_ =? 0); [intros [= <-]; eauto|].
    destruct (_ =? 1); [intros [= <-]; eauto|].
    destruct (Reader.DTYPE_MAP _); [|intros [= <-]; eauto].
    destruct (match fs_node fs filepath with Some _ => _ | None => _ end);
      [intros [= <-]; eauto|].
    destruct copy; discriminate.
  - intros [= <-].
    exact (read_header_raises fs filepath e0 Hh).
Qed.

(** A converted array, and only a converted one, is a [datetime64[ns]]
    array. *)
Lemma read_mmf_dtype (fs : filesystem) (filepath : string) (as_datetime : bool)
      (h : Reader.ListMmfHeader) (data : Reader.ndarray) :
  Reader.read_header fs filepath = Ok h ->
  Reader.read_mmf fs filepath as_datetime = Ok data ->
  Reader.dtype data = Reader.datetime64_ns
  <-> as_datetime = true /\ (Reader.datatype h = 12 \/ Reader.datatype h = 13).
Proof.
  intros Hh. unfold Reader.read_mmf.
  destruct (Reader.read_listmmf fs filepath false) as [raw|] eqn:Hraw;
    [|discriminate].
  destruct (proj1 (read_listmmf_ok _ _ _ _) Hraw)
    as (h' & bytes & d & Hh' & _ & Hd & _ & _ & Hdata).
  assert (Hdt : Reader.dtype raw <> Reader.datetime64_ns).
  { rewrite Hdata. cbn [Reader.dtype]. intros ->.
    exact (dtype_map_not_datetime _ Hd). }
  rewrite Hh. destruct as_datetime.
  - destruct (Z.eqb_spec (Reader.datatype h) 12) as [E12|N12];
      [|destruct (Z.eqb_spec (Reader.datatype h) 13) as [E13|N13]];
      intros [= <-]; cbn [Reader.convert_datetime Reader.convert_unixseconds
                          Reader.dtype]; tauto.
  - intros [= <-]. split; [tauto | intros [? _]; discriminate].
Qed.

(** X10: [read_mmf] fails exactly where [read_listmmf] fails, with the same
    error; where it returns, the array has as many elements as the raw
    one, it is the raw array unless conversion was asked for and the type
    code is 12 or 13, and it is a [datetime64[ns]] array exactly in that
    case: the tick conversion for code 12, the seconds conversion for
    code 13. *)
Theorem read_mmf_converts_time_types (fs : filesystem) (filepath : string)
  (as_datetime : bool) :
  (forall e, Reader.read_listmmf fs filepath false = Raise e ->
             Reader.read_mmf fs filepath as_datetime = Raise e)
  /\ (forall raw,
        Reader.read_listmmf fs filepath false = Ok raw ->
        exists h data,
          Reader.read_header fs filepath = Ok h
          /\ Reader.read_mmf fs filepath as_datetime = Ok data
          /\ length (Reader.elems data) = length (Reader.elems raw)
          /\ (Reader.dtype data = Reader.datetime64_ns
              <-> as_datetime = true
                  /\ (Reader.datatype h = 12 \/ Reader.datatype h = 13))
          /\ (as_datetime = true -> Reader.datatype h = 12 ->
              data = Reader.convert_datetime raw)
          /\ (as_datetime = true -> Reader.datatype h = 13 ->
              data = Reader.convert_unixseconds raw)
          /\ (as_datetime = false
              \/ (Reader.datatype h <> 12 /\ Reader.datatype h <> 13) ->
              data = raw)).
Proof.
  split.
  - intros e He. unfold Reader.read_mmf. now rewrite He.
  - intros raw Hraw.
    destruct (proj1 (read_listmmf_ok _ _ _ _) Hraw)
      as (h & bytes & d & Hh & _ & Hd & _ & _ & Hdata).
    assert (Hdt : Reader.dtype raw <> Reader.datetime64_ns).
    { rewrite Hdata. cbn [Reader.dtype]. intros ->.
      exact (dtype_map_not_datetime _ Hd). }
    exists h. unfold Reader.read_mmf. rewrite Hraw, Hh.
    destruct as_datetime.
    + destruct (Z.eqb_spec (Reader.datatype h) 12) as [E12|N12];
        [|destruct (Z.eqb_spec (Reader.datatype h) 13) as [E13|N13]];
        eexists; (split; [reflexivity|]); (split; [reflexivity|]).
      * split; [apply length_map|]. split; [cbn; tauto|].
        split; [reflexivity|]. split; [intros _ E; lia|].
        intros [|[]]; [discriminate|lia].
      * split; [apply length_map|]. split; [cbn; tauto|].
        split; [intros _ E; lia|]. split; [reflexivity|].
        intros [|[]]; [discriminate|lia].
      * split; [reflexivity|]. split; [split; [tauto|intros [_ [|]]; lia]|].
        split; [intros _ E; lia|]. split; [intros _ E; lia|]. reflexivity.
    + eexists; (split; [reflexivity|]); (split; [reflexivity|]).
      split; [reflexivity|]. split; [split; [tauto|intros [? _]; discriminate]|].
      split; [discriminate|]. split; [discriminate|]. reflexivity.
Qed.

Lemma read_mmf_converts_time_types_witness :
  exists h data,
    Reader.read_header sample_fs "d/Time.mmf" = Ok h
    /\ Reader.read_mmf sample_fs "d/Time.mmf" true = Ok data
    /\ Reader.elems data = [0; 1000000000].
Proof.
  destruct (proj2 (read_mmf_converts_time_types sample_fs "d/Time.mmf" true)
              {| Reader.dtype := Reader.int64;
                 Reader.elems := [621355968000000000; 621355968010000000] |}
              eq_refl)
    as (h & data & Hh & Hr & _ & _ & Hconv & _).
  exists h, data. split; [exact Hh|]. split; [exact Hr|].
  injection Hh as <-. now rewrite (Hconv eq_refl eq_refl).
Defined.

Lemma read_mmf_raises (fs : filesystem) (filepath : string)
      (as_datetime : bool) (e : exn) :
  Reader.read_mmf fs filepath as_datetime = Raise e ->
  exists msg, e = ListMmfReadError msg.
Proof.
  unfold Reader.read_mmf.
  destruct (Reader.read_listmmf fs filepath false) as [raw|e0] eqn:Hraw.
  - destruct as_datetime; [|discriminate].
    destruct (Reader.read_header fs filepath) as [h|e1] eqn:Hh.
    + destruct (_ =? 12); [discriminate|]. destruct (_ =? 13); discriminate.
    + intros [= <-]. exact (read_header_raises _ _ _ Hh).
  - intros [= <-]. exact (read_listmmf_raises _ _ _ _ Hraw).
Qed.

(** ** Reading a named column *)

Lemma lower_idempotent (s : string) : lower (lower s) = lower s.
Proof.
  induction s as [|c s IH]; [reflexivity|]. cbn [lower]. rewrite IH. f_equal.
  destruct c as [[] [] [] [] [] [] [] []]; reflexivity.
Qed.

(** X11: [read_column] applies the time conversion by the column's name
    alone: the series is the result of [read_mmf] with conversion asked
    for exactly when the name, in any letter case, is timestamp, datetime
    or time; the series carries the name; it is a [datetime64[ns]] series
    exactly when the name is one of these and the type code is 12 or 13;
    and every failure is a [ListMmfReadError]. *)
Theorem read_column_time_heuristic (fs : filesystem)
  (filepath column_name : string) :
  (forall series,
     Parquet.read_column fs filepath column_name = Ok series ->
     Parquet.name series = column_name
     /\ Reader.read_mmf fs filepath
          (bool_decide (lower column_name
                        ∈ ["timestamp"; "datetime"; "time"]%string))
        = Ok (Parquet.data series)
     /\ exists h,
          Reader.read_header fs filepath = Ok h
          /\ (Reader.dtype (Parquet.data series) = Reader.datetime64_ns
              <-> lower column_name ∈ ["timestamp"; "datetime"; "time"]%string
                  /\ (Reader.datatype h = 12 \/ Reader.datatype h = 13)))
  /\ (forall e, Parquet.read_column fs filepath column_name = Raise e ->
                exists msg, e = ListMmfReadError msg)
  /\ Parquet.read_column fs filepath (lower column_name)
     = match Parquet.read_column fs filepath column_name with
       | Ok series => Ok {| Parquet.name := lower column_name;
                            Parquet.data := Parquet.data series |}
       | Raise e => Raise e
       end.
Proof.
  split; [|split].
  - intros series. unfold Parquet.read_column.
    destruct (Reader.read_header fs filepath) as [h|] eqn:Hh; [|discriminate].
    destruct (Reader.read_mmf fs filepath _) as [data|] eqn:Hm; [|discriminate].
    intros [= <-]. cbn [Parquet.name Parquet.data].
    split; [reflexivity|]. split; [reflexivity|].
    exists h. split; [reflexivity|].
    rewrite (read_mmf_dtype _ _ _ _ _ Hh Hm), bool_decide_eq_true. tauto.
  - intros e. unfold Parquet.read_column.
    destruct (Reader.read_header fs filepath) as [h|e0] eqn:Hh.
    + destruct (Reader.read_mmf fs filepath _) as [data|e1] eqn:Hm;
        [discriminate|].
      intros [= <-]. exact (read_mmf_raises _ _ _ _ Hm).
    + intros [= <-]. exact (read_header_raises _ _ _ Hh).
  - unfold Parquet.read_column. rewrite lower_idempotent.
    destruct (Reader.read_header fs filepath); [|reflexivity].
    destruct (Reader.read_mmf fs filepath _); reflexivity.
Qed.

Lemma read_column_time_heuristic_witness :
  exists series,
    Parquet.read_column sample_fs "d/Time.mmf" "TimeStamp" = Ok series
    /\ Parquet.name series = "TimeStamp"%string.
Proof.
  eexists. split; [reflexivity|].
  exact (proj1 (proj1 (read_column_time_heuristic sample_fs "d/Time.mmf"
                         "TimeStamp") _ eq_refl)).
Defined.

(** ** Scanner: the whole result *)

Lemma saving_nonneg (info : Scan.FileInfo) : 0 <= saving info.
Proof.
  unfold saving. destruct (bool_decide _); [|lia].
  destruct (Scan.ODD_FALLBACK_WIDTH _); [|lia].
  destruct (Scan.ELEM_WIDTH_BYTES _); lia.
Qed.

Lemma sum_saving_nonneg (infos : list Scan.FileInfo) :
  0 <= sum_list (map saving infos).
Proof.
  unfold sum_list. induction infos as [|i infos IH]; cbn [map foldr].
  - lia.
  - pose proof (saving_nonneg i). lia.
Qed.

Lemma of_type_snoc (dt : Z) (infos : list Scan.FileInfo) (i : Scan.FileInfo) :
  of_type dt (infos ++ [i])
  = of_type dt infos ++ (if decide (Scan.data_type i = dt) then [i] else []).
Proof.
  unfold of_type. rewrite filter_app. reflexivity.
Qed.

Lemma expected_counter_snoc (f : Scan.FileInfo -> Z)
      (infos : list Scan.FileInfo) (i : Scan.FileInfo) (dt : Z) :
  expected_counter f (infos ++ [i]) dt
  = if decide (Scan.data_type i = dt)
    then Some (default 0 (expected_counter f infos dt) + f i)
    else expected_counter f infos dt.
Proof.
  unfold expected_counter. rewrite of_type_snoc.
  destruct (decide (Scan.data_type i = dt)); [|now rewrite app_nil_r].
  destruct (of_type dt infos) as [|x l] eqn:E.
  - cbn. f_equal. lia.
  - cbn [app default]. rewrite app_comm_cons, map_app. cbn [map].
    now rewrite sum_list_snoc.
Qed.

Lemma expected_savings_snoc (infos : list Scan.FileInfo) (i : Scan.FileInfo)
      (dt : Z) :
  expected_savings (infos ++ [i]) dt
  = if decide (Scan.data_type i = dt)
    then (if 0 <? saving i
          then Some (default 0 (expected_savings infos dt) + saving i)
          else expected_savings infos dt)
    else expected_savings infos dt.
Proof.
  unfold expected_savings. rewrite of_type_snoc.
  pose proof (sum_saving_nonneg (of_type dt infos)) as Hpos.
  pose proof (saving_nonneg i) as Hi.
  destruct (decide (Scan.data_type i = dt)); [|now rewrite app_nil_r].
  rewrite map_app. cbn [map]. rewrite sum_list_snoc.
  set (t := sum_list (map saving (of_type dt infos))) in *.
  destruct (Z.ltb_spec 0 (saving i)) as [Hs|Hs].
  - destruct (Z.ltb_spec 0 (t + saving i)); [|lia].
    destruct (Z.ltb_spec 0 t); cbn [default]; f_equal; lia.
  - replace (t + saving i) with t by lia. reflexivity.
Qed.

Lemma counter_add_lookup (k v dt : Z) (c : gmap Z Z) :
  Scan.counter_add k v c !! dt
  = if decide (k = dt) then Some (default 0 (c !! dt) + v) else c !! dt.
Proof.
  unfold Scan.counter_add, Scan.counter_get. rewrite lookup_insert.
  destruct (decide (k = dt)) as [->|]; reflexivity.
Qed.

(** What the loop body does to the odd-byte variables. *)
Lemma scan_file_odd_step (s s' : Scan.state) (e : Scan.entry) :
  Scan.scan_file s e = Ok s' ->
  match decoded e with
  | None => True
  | Some info =>
      Scan.odd_files s'
      = Scan.odd_files s
        + (if bool_decide (Scan.data_type info ∈ Scan.ODD_BYTE_DT) then 1 else 0)
      /\ Scan.odd_saved_bytes_total s' = Scan.odd_saved_bytes_total s + saving info
      /\ Scan.odd_saved_bytes_by_dtype s'
         = (if 0 <? saving info
            then Scan.counter_add (Scan.data_type info) (saving info)
                   (Scan.odd_saved_bytes_by_dtype s)
            else Scan.odd_saved_bytes_by_dtype s)
  end.
Proof.
  unfold Scan.scan_file, decoded.
  destruct (endswith _ _); cbn [negb]; [|trivial].
  destruct (Scan.read_header _ _) as [lines [info|]]; cbn [snd]; [|trivial].
  unfold Scan.account_odd, saving. cbn [Scan.data_type].
  destruct (bool_decide (Scan.data_type info ∈ Scan.ODD_BYTE_DT)) eqn:Hodd.
  - apply bool_decide_eq_true_1 in Hodd.
    destruct (odd_widths _ Hodd) as (fb & w & -> & -> & _ & Hpos).
    destruct (Z.leb_spec 0 (Scan.count info)) as [Hc|Hc].
    + destruct (Z.ltb_spec 0 ((fb - w) * Scan.count info)) as [Hs|Hs];
        intros [= <-]; cbn.
      * rewrite Z.max_r by lia.
        destruct (Z.ltb_spec 0 ((fb - w) * Scan.count info)); [|lia].
        repeat split; lia.
      * rewrite Z.max_l by lia. cbn. repeat split; lia.
    + intros [= <-]. cbn. rewrite Z.max_l by nia. cbn. repeat split; lia.
  - intros [= <-]. cbn. repeat split; lia.
Qed.

Lemma determined_initial : determined Scan.initial [].
Proof. repeat split. Qed.

Lemma determined_step (s s' : Scan.state) (done : list Scan.entry)
      (e : Scan.entry) :
  determined s (decoded_headers done) ->
  Scan.scan_file s e = Ok s' ->
  determined s' (decoded_headers (done ++ [e])).
Proof.
  intros (Hn & Hb & Hof & Hos & Hdt) Hstep.
  pose proof (scan_file_odd_step _ _ _ Hstep) as Hodd.
  destruct (scan_file_step s e) as (lines & s1 & Hs1 & _ & Hcase).
  rewrite Hstep in Hs1. injection Hs1 as <-.
  rewrite decoded_headers_snoc.
  destruct (decoded e) as [info|].
  - destruct Hcase as (Eb & Ef & Ebf & Ebi & Ebb & _).
    destruct Hodd as (Eof & Eos & Eob).
    unfold determined. rewrite Eb, Ef, Ebf, Ebi, Ebb, Eof, Eos, Eob.
    rewrite length_app, !map_app, filter_app, length_app. cbn [length map].
    rewrite !sum_list_snoc.
    split; [lia|]. split; [lia|]. split.
    { destruct (bool_decide (Scan.data_type info ∈ Scan.ODD_BYTE_DT)) eqn:Ho.
      - apply bool_decide_eq_true_1 in Ho.
        rewrite filter_cons_True by exact Ho. cbn. lia.
      - apply bool_decide_eq_false_1 in Ho.
        rewrite filter_cons_False by exact Ho. cbn. lia. }
    split; [lia|].
    intros dt. destruct (Hdt dt) as (H1 & H2 & H3 & H4).
    rewrite !counter_add_lookup, !expected_counter_snoc, expected_savings_snoc.
    rewrite H1, H2, H3.
    destruct (decide (Scan.data_type info = dt)) as [->|Hne].
    + repeat (split; [reflexivity|]).
      destruct (0 <? saving info); [|exact H4].
      rewrite counter_add_lookup, H4.
      destruct (decide _); first [reflexivity | congruence].
    + repeat (split; [reflexivity|]).
      destruct (0 <? saving info); [|exact H4].
      rewrite counter_add_lookup, H4.
      destruct (decide _); first [reflexivity | congruence].
  - destruct Hcase as (Eb & Ef & Ebf & Ebi & Ebb & Eof & Eos & Eob & _).
    rewrite app_nil_r. unfold determined.
    rewrite Eb, Ef, Ebf, Ebi, Ebb, Eof, Eos, Eob.
    repeat split; auto; apply Hdt.
Qed.

Lemma determined_scan (rest done : list Scan.entry) (s : Scan.state) :
  determined s (decoded_headers done) ->
  exists s', Scan.scan_from s rest = Ok s'
             /\ determined s' (decoded_headers (done ++ rest)).
Proof.
  revert done s. induction rest as [|e rest IH]; intros done s Hd.
  - exists s. rewrite app_nil_r. split; [reflexivity | exact Hd].
  - cbn [Scan.scan_from].
    destruct (scan_file_step s e) as (lines & s1 & Hs1 & _).
    rewrite Hs1. replace (done ++ e :: rest) with ((done ++ [e]) ++ rest)
      by now rewrite <- app_assoc.
    apply IH. exact (determined_step _ _ _ _ Hd Hs1).
Qed.

Lemma scan_determined (walk : list Scan.entry) :
  exists s, Scan.scan_from Scan.initial walk = Ok s
            /\ determined s (decoded_headers walk).
Proof. exact (determined_scan walk [] Scan.initial determined_initial). Qed.

Lemma scan_from_invariant (P : Scan.state -> Prop) :
  (forall s e s', P s -> Scan.scan_file s e = Ok s' -> P s') ->
  forall walk s s', P s -> Scan.scan_from s walk = Ok s' -> P s'.
Proof.
  intros Hstep walk. induction walk as [|e rest IH]; intros s s' Hs;
    cbn [Scan.scan_from].
  - now intros [= <-].
  - destruct (Scan.scan_file s e) as [s1|] eqn:E; [|discriminate].
    apply IH. exact (Hstep _ _ _ Hs E).
Qed.

Lemma savings_total_step (s s' : Scan.state) (e : Scan.entry) :
  Scan.odd_saved_bytes_total s
  = Scan.counter_total (Scan.odd_saved_bytes_by_dtype s) ->
  Scan.scan_file s e = Ok s' ->
  Scan.odd_saved_bytes_total s'
  = Scan.counter_total (Scan.odd_saved_bytes_by_dtype s').
Proof.
  intros Hinv Hstep.
  pose proof (scan_file_odd_step _ _ _ Hstep) as Hodd.
  destruct (scan_file_step s e) as (lines & s1 & Hs1 & _ & Hcase).
  rewrite Hstep in Hs1. injection Hs1 as <-.
  destruct (decoded e) as [info|].
  - destruct Hodd as (_ & -> & ->).
    destruct (Z.ltb_spec 0 (saving info)).
    + rewrite counter_total_add. lia.
    + pose proof (saving_nonneg info). lia.
  - destruct Hcase as (_ & _ & _ & _ & _ & _ & -> & -> & _). exact Hinv.
Qed.

(** X12: the odd-byte figures of a scan are those of the decoded
    headers: the file count is the number of headers with an odd-byte
    type; the total savings are the sum over the headers of
    [max(0, (fallback - width) * count)], never negative, and equal to the
    sum of the per-type savings; the per-type savings have entries for
    odd-byte types only, each the positive sum of its type's savings. *)
Theorem scan_dir_odd_byte_accounting (walk : list Scan.entry) :
  exists st log,
    Scan.scan_dir walk = Ok (st, log)
    /\ Scan.st_odd_files st
       = Z.of_nat (length (filter (fun i => Scan.data_type i ∈ Scan.ODD_BYTE_DT)
                                  (decoded_headers walk)))
    /\ Scan.st_odd_saved_bytes_total st
       = sum_list (map saving (decoded_headers walk))
    /\ 0 <= Scan.st_odd_saved_bytes_total st
    /\ Scan.st_odd_saved_bytes_total st
       = Scan.counter_total (Scan.st_odd_saved_bytes_by_dtype st)
    /\ forall dt v,
         Scan.st_odd_saved_bytes_by_dtype st !! dt = Some v ->
         dt ∈ Scan.ODD_BYTE_DT /\ 0 < v
         /\ v = sum_list (map saving (of_type dt (decoded_headers walk))).
Proof.
  destruct (scan_determined walk) as (s & Hs & _ & _ & Hof & Hos & Hdt).
  unfold Scan.scan_dir. rewrite Hs.
  exists (Scan.stats_of s), (Scan.err s). split; [reflexivity|].
  cbn [Scan.stats_of Scan.st_odd_files Scan.st_odd_saved_bytes_total
       Scan.st_odd_saved_bytes_by_dtype].
  split; [exact Hof|]. split; [exact Hos|].
  split; [rewrite Hos; apply sum_saving_nonneg|]. split.
  { apply (scan_from_invariant
             (fun s => Scan.odd_saved_bytes_total s
                       = Scan.counter_total (Scan.odd_saved_bytes_by_dtype s))
             (fun s e s' => savings_total_step s s' e) walk Scan.initial s);
      [reflexivity | exact Hs]. }
  intros dt v Hv. destruct (Hdt dt) as (_ & _ & _ & Hsav).
  rewrite Hsav in Hv. unfold expected_savings in Hv.
  destruct (Z.ltb_spec 0 (sum_list (map saving (of_type dt (decoded_headers walk)))))
    as [Hpos|]; [|discriminate].
  injection Hv as <-. split; [|split; [exact Hpos | reflexivity]].
  (* a positive sum has a positive term, of an odd-byte header *)
  destruct (decide (dt ∈ Scan.ODD_BYTE_DT)) as [|Hnot]; [assumption|].
  exfalso. revert Hpos.
  assert (Hzero : forall l, Forall (fun i => Scan.data_type i = dt) l ->
                            sum_list (map saving l) = 0).
  { induction 1 as [|i l Hi _ IH]; [reflexivity|].
    cbn [map sum_list foldr]. unfold sum_list in IH. rewrite IH.
    unfold saving. rewrite Hi, bool_decide_eq_false_2 by exact Hnot. lia. }
  rewrite Hzero; [lia|].
  unfold of_type. apply list.Forall_forall. intros i Hi.
  now apply list_elem_of_filter in Hi as [? _].
Qed.

(** X13: the item counter of a type holds the sum of the counts of its
    decoded headers, a negative count contributing 0; and the three
    per-type counters have the same keys, the type codes of the decoded
    headers, so that the report reads an entry of each for every type it
    lists. *)
Theorem scan_dir_per_type_counters (walk : list Scan.entry) :
  exists st log,
    Scan.scan_dir walk = Ok (st, log)
    /\ (forall dt,
          Scan.counter_get (Scan.st_by_dtype_items st) dt
          = sum_list (map (fun i => Z.max 0 (Scan.count i))
                          (of_type dt (decoded_headers walk)))
          /\ 0 <= Scan.counter_get (Scan.st_by_dtype_items st) dt)
    /\ dom (Scan.st_by_dtype_items st) = dom (Scan.st_by_dtype_files st)
    /\ dom (Scan.st_by_dtype_bytes st) = dom (Scan.st_by_dtype_files st)
    /\ forall dt,
         dt ∈ dom (Scan.st_by_dtype_files st)
         <-> exists info, info ∈ decoded_headers walk
                          /\ Scan.data_type info = dt.
Proof.
  destruct (scan_determined walk) as (s & Hs & _ & _ & _ & _ & Hdt).
  unfold Scan.scan_dir. rewrite Hs.
  exists (Scan.stats_of s), (Scan.err s). split; [reflexivity|].
  cbn [Scan.stats_of Scan.st_by_dtype_items Scan.st_by_dtype_files
       Scan.st_by_dtype_bytes].
  assert (Hsome : forall f dt,
            is_Some (expected_counter f (decoded_headers walk) dt)
            <-> exists info, info ∈ decoded_headers walk
                             /\ Scan.data_type info = dt).
  { intros f dt. unfold expected_counter, of_type.
    destruct (filter _ _) as [|x l] eqn:E.
    - split; [intros [? ?]; discriminate|].
      intros (info & Hin & Hty). exfalso.
      assert (Hx : info ∈ filter (fun i => Scan.data_type i = dt)
                                 (decoded_headers walk))
        by now apply list_elem_of_filter.
      rewrite E in Hx. now apply elem_of_nil in Hx.
    - split; [intros _|eauto].
      assert (Hx : x ∈ filter (fun i => Scan.data_type i = dt)
                              (decoded_headers walk))
        by (rewrite E; apply list_elem_of_here).
      apply list_elem_of_filter in Hx as [? ?]. eauto. }
  split; [|split; [|split]].
  - intros dt. destruct (Hdt dt) as (_ & Hi & _).
    unfold Scan.counter_get. rewrite Hi. unfold expected_counter.
    assert (Hnn : forall l : list Scan.FileInfo,
              0 <= sum_list (map (fun i => Z.max 0 (Scan.count i)) l)).
    { unfold sum_list. induction l as [|i l IH]; cbn [map foldr]; lia. }
    destruct (of_type dt (decoded_headers walk)) as [|x l];
      cbn [default]; [split; [reflexivity|lia]|].
    split; [reflexivity | apply Hnn].
  - apply set_eq. intros dt. rewrite !elem_of_dom.
    destruct (Hdt dt) as (-> & -> & _). now rewrite !Hsome.
  - apply set_eq. intros dt. rewrite !elem_of_dom.
    destruct (Hdt dt) as (-> & _ & -> & _). now rewrite !Hsome.
  - intros dt. rewrite elem_of_dom. destruct (Hdt dt) as (-> & _).
    apply Hsome.
Qed.

Lemma sum_list_Permutation (l l' : list Z) : l ≡ₚ l' -> sum_list l = sum_list l'.
Proof.
  unfold sum_list. induction 1; cbn [foldr]; lia.
Qed.

Lemma expected_counter_Permutation (f : Scan.FileInfo -> Z)
      (l l' : list Scan.FileInfo) (dt : Z) :
  l ≡ₚ l' -> expected_counter f l dt = expected_counter f l' dt.
Proof.
  intros Hp. unfold expected_counter, of_type.
  assert (Hf : filter (fun i => Scan.data_type i = dt) l
               ≡ₚ filter (fun i => Scan.data_type i = dt) l')
    by now apply filter_Permutation.
  destruct (filter _ l) as [|x r] eqn:E1; destruct (filter _ l') as [|y r'] eqn:E2.
  - reflexivity.
  - now apply Permutation_nil_cons in Hf.
  - symmetry in Hf. now apply Permutation_nil_cons in Hf.
  - f_equal. apply sum_list_Permutation. now apply fmap_Permutation.
Qed.

Lemma expected_savings_Permutation (l l' : list Scan.FileInfo) (dt : Z) :
  l ≡ₚ l' -> expected_savings l dt = expected_savings l' dt.
Proof.
  intros Hp. unfold expected_savings, of_type.
  assert (Hs : sum_list (map saving (filter (fun i => Scan.data_type i = dt) l))
               = sum_list (map saving (filter (fun i => Scan.data_type i = dt) l'))).
  { apply sum_list_Permutation. apply fmap_Permutation.
    now apply filter_Permutation. }
  now rewrite Hs.
Qed.

(** X14: the statistics do not depend on the order in which the files
    are met: two walks over the same entries in different orders return
    the same dictionary. *)
Theorem scan_dir_order_independent (walk walk' : list Scan.entry)
  (Hperm : walk ≡ₚ walk') :
  exists st log log',
    Scan.scan_dir walk = Ok (st, log)
    /\ Scan.scan_dir walk' = Ok (st, log').
Proof.
  destruct (scan_determined walk) as (s & Hs & Hn & Hb & Hof & Hos & Hdt).
  destruct (scan_determined walk') as (s' & Hs' & Hn' & Hb' & Hof' & Hos' & Hdt').
  assert (Hp : decoded_headers walk ≡ₚ decoded_headers walk')
    by now apply omap_Permutation.
  unfold Scan.scan_dir. rewrite Hs, Hs'.
  exists (Scan.stats_of s), (Scan.err s), (Scan.err s').
  split; [reflexivity|]. f_equal. f_equal. unfold Scan.stats_of.
  f_equal.
  - rewrite Hn', Hn. f_equal. symmetry. now apply Permutation_length.
  - rewrite Hb', Hb. apply sum_list_Permutation. symmetry.
    now apply fmap_Permutation.
  - apply map_eq. intros dt. destruct (Hdt dt) as (-> & _).
    destruct (Hdt' dt) as (-> & _). symmetry.
    now apply expected_counter_Permutation.
  - apply map_eq. intros dt. destruct (Hdt dt) as (_ & -> & _).
    destruct (Hdt' dt) as (_ & -> & _). symmetry.
    now apply expected_counter_Permutation.
  - apply map_eq. intros dt. destruct (Hdt dt) as (_ & _ & -> & _).
    destruct (Hdt' dt) as (_ & _ & -> & _). symmetry.
    now apply expected_counter_Permutation.
  - rewrite Hof', Hof. f_equal. symmetry. apply Permutation_length.
    now apply filter_Permutation.
  - rewrite Hos', Hos. apply sum_list_Permutation. symmetry.
    now apply fmap_Permutation.
  - apply map_eq. intros dt. destruct (Hdt dt) as (_ & _ & _ & ->).
    destruct (Hdt' dt) as (_ & _ & _ & ->). symmetry.
    now apply expected_savings_Permutation.
Qed.

Lemma scan_dir_order_independent_witness :
  exists st log log',
    Scan.scan_dir [synthetic_entry 14 1000 3; truncated_entry;
                   synthetic_entry 15 1000 5] = Ok (st, log)
    /\ Scan.scan_dir [synthetic_entry 15 1000 5; synthetic_entry 14 1000 3;
                      truncated_entry] = Ok (st, log').
Proof.
  apply scan_dir_order_independent. symmetry.
  apply (Permutation_cons_append
           [synthetic_entry 14 1000 3; truncated_entry]
           (synthetic_entry 15 1000 5)).
Defined.

Lemma scan_dir_odd_byte_accounting_witness :
  exists st log,
    Scan.scan_dir [synthetic_entry 18 10 3] = Ok (st, log)
    /\ 18 ∈ Scan.ODD_BYTE_DT
    /\ Scan.st_odd_saved_bytes_total st = 10.
Proof.
  destruct (scan_dir_odd_byte_accounting [synthetic_entry 18 10 3])
    as (st & log & Hscan & _ & Htotal & _ & _ & Hentries).
  exists st, log. split; [exact Hscan|]. split; [|exact Htotal].
  vm_compute in Hscan. injection Hscan as <- _.
  exact (proj1 (Hentries 18 10 eq_refl)).
Defined.

Lemma scan_dir_per_type_counters_witness :
  exists st log,
    Scan.scan_dir [synthetic_entry 18 10 3] = Ok (st, log)
    /\ 18 ∈ dom (Scan.st_by_dtype_files st).
Proof.
  destruct (scan_dir_per_type_counters [synthetic_entry 18 10 3])
    as (st & log & Hscan & _ & _ & _ & Hkeys).
  exists st, log. split; [exact Hscan|].
  apply Hkeys. eexists. split; [apply list_elem_of_here | reflexivity].
Defined.

(** ** Scanner: what is looked at, what is logged *)

Lemma scan_from_filter (walk : list Scan.entry) (s : Scan.state) :
  Scan.scan_from s walk = Scan.scan_from s (filter is_bt walk).
Proof.
  revert s. induction walk as [|e rest IH]; intros s; [reflexivity|].
  destruct (decide (is_bt e)) as [Hbt|Hbt].
  - rewrite filter_cons_True by exact Hbt. cbn [Scan.scan_from].
    destruct (Scan.scan_file s e); [apply IH | reflexivity].
  - rewrite filter_cons_False by exact Hbt. cbn [Scan.scan_from].
    unfold is_bt in Hbt. apply not_true_is_false in Hbt.
    unfold Scan.scan_file. rewrite Hbt. cbn [negb]. apply IH.
Qed.

(** X15: only names that end in [.bt], in any letter case, are looked
    at: the scan of a walk is the scan of its [.bt] entries, result and
    standard error alike, and an entry without that ending has no decoded
    header. *)
Theorem scan_dir_ignores_other_files (walk : list Scan.entry) :
  Scan.scan_dir walk = Scan.scan_dir (filter is_bt walk)
  /\ decoded_headers walk = decoded_headers (filter is_bt walk)
  /\ forall e, e ∈ walk -> ~ is_bt e -> decoded e = None.
Proof.
  split; [|split].
  - unfold Scan.scan_dir. now rewrite scan_from_filter.
  - unfold decoded_headers.
    induction walk as [|e rest IH]; [reflexivity|].
    destruct (decide (is_bt e)) as [Hbt|Hbt].
    + rewrite filter_cons_True by exact Hbt. cbn [omap list_omap].
      change (list_omap _ _ decoded) with (omap decoded).
      destruct (decoded e); now rewrite IH.
    + rewrite filter_cons_False by exact Hbt. cbn [omap list_omap].
      change (list_omap _ _ decoded) with (omap decoded).
      unfold is_bt in Hbt. apply not_true_is_false in Hbt.
      unfold decoded at 1. rewrite Hbt. exact IH.
  - intros e _ Hbt. unfold is_bt in Hbt. apply not_true_is_false in Hbt.
    unfold decoded. now rewrite Hbt.
Qed.

Lemma scan_dir_ignores_other_files_witness :
  decoded {| Scan.root := "data"; Scan.fn := "Close.mmf";
             Scan.target := blank_file 11 3 8 |} = None.
Proof.
  apply (proj2 (proj2 (scan_dir_ignores_other_files
           [{| Scan.root := "data"; Scan.fn := "Close.mmf";
               Scan.target := blank_file 11 3 8 |}]))).
  - apply list_elem_of_here.
  - unfold is_bt. vm_compute. discriminate.
Defined.

Lemma scan_file_log (s s' : Scan.state) (e : Scan.entry) :
  Scan.scan_file s e = Ok s' -> Scan.err s' = Scan.err s ++ warning_lines e.
Proof.
  unfold Scan.scan_file, warning_lines.
  destruct (endswith _ _); cbn [negb].
  - destruct (Scan.read_header _ _) as [lines [info|]]; cbn [fst].
    + destruct (account_odd_frame info (Scan.account info (Scan.log lines s)))
        as (s2 & -> & _ & _ & _ & _ & _ & _ & He).
      intros [= <-]. cbn. rewrite He. reflexivity.
    + intros [= <-]. reflexivity.
  - intros [= <-]. now rewrite app_nil_r.
Qed.

Lemma scan_from_log (walk : list Scan.entry) (s s' : Scan.state) :
  Scan.scan_from s walk = Ok s' ->
  Scan.err s' = Scan.err s ++ flat_map warning_lines walk.
Proof.
  revert s. induction walk as [|e rest IH]; intros s; cbn [Scan.scan_from flat_map].
  - intros [= <-]. now rewrite app_nil_r.
  - destruct (Scan.scan_file s e) as [s1|] eqn:E; [|discriminate].
    intros H. rewrite (IH _ H), (scan_file_log _ _ _ E). now rewrite app_assoc.
Qed.

Lemma warning_lines_length (e : Scan.entry) :
  length (warning_lines e)
  = if decide (is_bt e /\ bad_file (Scan.target e) = true) then 1%nat else 0%nat.
Proof.
  unfold warning_lines, is_bt.
  destruct (endswith _ _) eqn:Hbt.
  - destruct (bad_file (Scan.target e)) eqn:Hbad.
    + destruct (read_header_bad (os_path_join (Scan.root e) (Scan.fn e)) _ Hbad)
        as (line & -> & _).
      destruct (decide _) as [|N]; [reflexivity | exfalso; apply N; auto].
    + destruct (read_header_good (os_path_join (Scan.root e) (Scan.fn e)) _ Hbad)
        as (info & -> & _).
      destruct (decide _) as [[_ ?]|]; [discriminate | reflexivity].
  - destruct (decide _) as [[? _]|]; [discriminate | reflexivity].
Qed.

(** X16: standard error holds the lines of the entries in the order
    of the walk, one line for each [.bt] entry whose header cannot be
    used and none for any other entry; a walk without such entries leaves
    it empty. *)
Theorem scan_dir_one_line_per_bad_file (walk : list Scan.entry) :
  exists st log,
    Scan.scan_dir walk = Ok (st, log)
    /\ log = flat_map warning_lines walk
    /\ length log
       = length (filter (fun e => is_bt e /\ bad_file (Scan.target e) = true)
                        walk)
    /\ (Forall (fun e => is_bt e -> bad_file (Scan.target e) = false) walk ->
        log = []).
Proof.
  destruct (scan_from_total walk Scan.initial) as [s Hs].
  unfold Scan.scan_dir. rewrite Hs.
  exists (Scan.stats_of s), (Scan.err s). split; [reflexivity|].
  rewrite (scan_from_log _ _ _ Hs). cbn [Scan.initial Scan.err app].
  assert (Hlen : length (flat_map warning_lines walk)
                 = length (filter (fun e => is_bt e /\ bad_file (Scan.target e) = true)
                                  walk)).
  { clear Hs. induction walk as [|e rest IH]; [reflexivity|].
    cbn [flat_map]. rewrite length_app, warning_lines_length.
    destruct (decide (is_bt e /\ bad_file (Scan.target e) = true)) as [Hb|Hb].
    - rewrite filter_cons_True by exact Hb. cbn [length]. now rewrite IH.
    - rewrite filter_cons_False by exact Hb. now rewrite IH. }
  split; [reflexivity|]. split; [exact Hlen|].
  intros Hgood. apply length_zero_iff_nil. rewrite Hlen.
  replace (filter _ walk) with (@nil Scan.entry); [reflexivity|].
  symmetry. clear Hlen Hs. induction Hgood as [|e rest He _ IH]; [reflexivity|].
  rewrite filter_cons_False; [exact IH|].
  intros [Hbt Hbad]. rewrite (He Hbt) in Hbad. discriminate.
Qed.

Lemma scan_dir_one_line_per_bad_file_witness :
  exists st log,
    Scan.scan_dir [synthetic_entry 14 1000 3] = Ok (st, log) /\ log = [].
Proof.
  destruct (scan_dir_one_line_per_bad_file [synthetic_entry 14 1000 3])
    as (st & log & Hscan & _ & _ & Hnone).
  exists st, log. split; [exact Hscan|]. apply Hnone.
  apply List.Forall_cons; [intros _; reflexivity | apply List.Forall_nil].
Defined.

(** ** Column lookup, further *)

Lemma dict_get_keys {V : Type} (k : string) (d : list (string * V)) :
  Dict.get k d = None <-> k ∉ Dict.keys d.
Proof.
  unfold Dict.keys. induction d as [|[k0 v0] d IH]; cbn [Dict.get map fst].
  - split; [intros _; apply not_elem_of_nil | reflexivity].
  - rewrite not_elem_of_cons. destruct (String.eqb_spec k k0) as [->|Hne].
    + split; [discriminate | intros [? _]; congruence].
    + rewrite IH. tauto.
Qed.

(** Assigning to a new key appends it. *)
Lemma dict_set_fresh {V : Type} (k : string) (v : V) (d : list (string * V)) :
  Dict.get k d = None -> Dict.set k v d = d ++ [(k, v)].
Proof.
  induction d as [|[k0 v0] d IH]; cbn [Dict.get Dict.set app]; [reflexivity|].
  destruct (String.eqb k k0); [discriminate|]. intros H. now rewrite IH.
Qed.

Lemma try_extensions_found (fs : filesystem) (directory col : string) :
  match Parquet.try_extensions fs directory col [".mmf"; ".bt"]%string with
  | Some p =>
      path_exists fs p = true
      /\ found fs directory col
      /\ (p = os_path_join directory (col +:+ ".mmf")
          \/ p = os_path_join directory (col +:+ ".bt"))
  | None => ~ found fs directory col
  end.
Proof.
  unfold found. cbn [Parquet.try_extensions].
  destruct (path_exists fs (os_path_join directory (col +:+ ".mmf"))) eqn:Em.
  - auto.
  - destruct (path_exists fs (os_path_join directory (col +:+ ".bt"))) eqn:Eb.
    + auto.
    + intros [|]; discriminate.
Qed.

Section FindColumnsOrder.
Variable fs : filesystem.
Variable directory : string.

(** With no name asked for twice, the loop appends the found names in
    the order asked and warns about the others in that order. *)
Lemma find_columns_order (column_names : list string)
      (files : list (string * string)) (err : Parquet.stderr) :
  NoDup column_names ->
  (forall c, c ∈ column_names -> Dict.get c files = None) ->
  Dict.keys (fst (Parquet.find_columns fs directory column_names files err))
  = Dict.keys files ++ filter (found fs directory) column_names
  /\ snd (Parquet.find_columns fs directory column_names files err)
     = err ++ map (not_found_warning directory)
                  (filter (fun c => ~ found fs directory c) column_names).
Proof.
  revert files err.
  induction column_names as [|col rest IH]; intros files err Hnd Hfresh.
  - cbn. now rewrite !app_nil_r.
  - apply NoDup_cons in Hnd as [Hnotin Hnd].
    assert (Hcol : Dict.get col files = None)
      by (apply Hfresh, list_elem_of_here).
    cbn [Parquet.find_columns].
    pose proof (try_extensions_found fs directory col) as Htry.
    destruct (Parquet.try_extensions fs directory col _) as [p|].
    + destruct Htry as (_ & Hfound & _).
      rewrite dict_get_set, String.eqb_refl.
      destruct (IH (Dict.set col p files) err Hnd) as [Hk He].
      { intros c Hc. rewrite dict_get_set.
        destruct (String.eqb_spec c col) as [->|]; [contradiction|].
        apply Hfresh. now apply list_elem_of_further. }
      rewrite Hk, He. rewrite dict_set_fresh by exact Hcol.
      rewrite filter_cons_True by exact Hfound.
      rewrite filter_cons_False by tauto.
      unfold Dict.keys. rewrite map_app. cbn [map fst].
      now rewrite <- app_assoc.
    + rewrite Hcol.
      destruct (IH files
                  (err ++ ["WARNING: Column '" +:+ col +:+ "' not found in "
                           +:+ directory]) Hnd) as [Hk He].
      { intros c Hc. apply Hfresh. now apply list_elem_of_further. }
      rewrite Hk, He.
      rewrite filter_cons_False by exact Htry.
      rewrite filter_cons_True by exact Htry.
      cbn [map]. now rewrite <- app_assoc.
Qed.

End FindColumnsOrder.

(** X17: for an explicit list of column names, none given twice, the
    result of [find_mmf_files] lists the found names in the order asked,
    each with a path that exists and is the name's [.mmf] or [.bt] file in
    the directory, and standard error holds one warning for each name not
    found, in the order asked; a path that is not a directory raises
    [ValueError]. *)
Theorem find_mmf_files_keeps_order (fs : filesystem) (directory : string)
  (column_names : list string) :
  (is_dir fs directory = false ->
   forall names,
     Parquet.find_mmf_files fs directory names
     = ([], Raise (ValueError ("Not a directory: " +:+ directory))))
  /\ (is_dir fs directory = true -> column_names <> [] -> NoDup column_names ->
      exists files,
        Parquet.find_mmf_files fs directory (Some column_names)
        = (map (not_found_warning directory)
               (filter (fun c => ~ found fs directory c) column_names),
           Ok files)
        /\ Dict.keys files = filter (found fs directory) column_names
        /\ forall col p,
             Dict.get col files = Some p ->
             col ∈ column_names
             /\ path_exists fs p = true
             /\ (p = os_path_join directory (col +:+ ".mmf")
                 \/ p = os_path_join directory (col +:+ ".bt"))).
Proof.
  split.
  - intros Hdir names. unfold Parquet.find_mmf_files. now rewrite Hdir.
  - intros Hdir Hne Hnd. unfold Parquet.find_mmf_files. rewrite Hdir.
    cbn [negb]. destruct column_names as [|c0 rest]; [congruence|].
    destruct (find_columns_order fs directory (c0 :: rest) [] [] Hnd)
      as [Hk He]; [reflexivity|].
    pose proof (find_columns_get fs directory (c0 :: rest) [] []) as Hget.
    destruct (Parquet.find_columns fs directory (c0 :: rest) [] [])
      as [files err]. cbn [fst snd] in *.
    exists files. rewrite He. split; [reflexivity|]. split; [exact Hk|].
    intros col p Hp. rewrite Hget in Hp. cbn [Dict.get] in Hp.
    destruct (bool_decide (col ∈ c0 :: rest)) eqn:Hin; [|discriminate].
    apply bool_decide_eq_true_1 in Hin. split; [exact Hin|].
    pose proof (try_extensions_found fs directory col) as Htry.
    destruct (Parquet.try_extensions fs directory col _) as [q|];
      [|discriminate].
    injection Hp as ->. tauto.
Qed.

Lemma find_mmf_files_keeps_order_witness :
  exists files,
    Parquet.find_mmf_files sample_fs "d" (Some ["B"; "Open"; "Time"; "A"]%string)
    = ([not_found_warning "d" "Open"], Ok files)
    /\ Dict.keys files = ["B"; "Time"; "A"]%string.
Proof.
  destruct (proj2 (find_mmf_files_keeps_order sample_fs "d"
                     ["B"; "Open"; "Time"; "A"]%string)
                  eq_refl ltac:(discriminate))
    as (files & Hfind & Hkeys & _).
  - repeat (apply NoDup_cons_2;
            [rewrite ?elem_of_cons, elem_of_nil; intuition discriminate|]).
    apply NoDup_nil_2.
  - exists files. split; [exact Hfind | exact Hkeys].
Defined.

(** ** Auto-detected columns *)

Section Detect.
Variable fs : filesystem.
Variable directory : string.

(** One pass over the names of an extension: the last name of a stem
    decides its entry. *)
Lemma detect_names_get (ext : string) (names : list string)
      (files : list (string * string)) (k : string) :
  (exists name,
     name ∈ names /\ Parquet.stem name ext = k
     /\ Dict.get k
          (fold_left
             (fun files name =>
                Dict.set (Parquet.stem name ext) (os_path_join directory name)
                         files)
             names files)
        = Some (os_path_join directory name))
  \/ ((forall name, name ∈ names -> Parquet.stem name ext <> k)
      /\ Dict.get k
           (fold_left
              (fun files name =>
                 Dict.set (Parquet.stem name ext) (os_path_join directory name)
                          files)
              names files)
         = Dict.get k files).
Proof.
  revert files. induction names as [|n names IH]; intros files.
  - right. split; [intros name Hin; now apply elem_of_nil in Hin | reflexivity].
  - cbn [fold_left].
    destruct (IH (Dict.set (Parquet.stem n ext) (os_path_join directory n) files))
      as [(name & Hin & Hst & Hget)|[Hnone Hget]].
    + left. exists name. split; [now apply list_elem_of_further | auto].
    + rewrite dict_get_set in Hget.
      destruct (String.eqb_spec k (Parquet.stem n ext)) as [->|Hne].
      * left. exists n. split; [apply list_elem_of_here | auto].
      * right. split; [|exact Hget].
        intros name Hin. apply elem_of_cons in Hin as [->|Hin];
          [congruence | now apply Hnone].
Qed.

Lemma glob_elem (ext name : string) :
  name ∈ Parquet.glob fs directory ext
  <-> exists names, fs_listdir fs directory = Some names
                    /\ name ∈ names /\ endswith name ext = true.
Proof.
  unfold Parquet.glob. destruct (fs_listdir fs directory) as [names|].
  - rewrite list_elem_of_filter. split.
    + intros [He Hin]. exists names. apply Is_true_true in He. auto.
    + intros (names' & [= <-] & Hin & He). split; [now apply Is_true_true|auto].
  - split; [intros H; now apply elem_of_nil in H | intros (? & ? & _); discriminate].
Qed.

End Detect.

(** X18: without column names (or with an empty list) [find_mmf_files]
    takes every [.mmf] and [.bt] name of the directory, writes nothing to
    standard error, and names each column by the file's stem.  Every entry
    is a listed file under its own stem; every listed [.bt] file has its
    stem mapped to a [.bt] file, and every listed [.mmf] file has its stem
    in the result: where both extensions exist for a stem the [.bt] file
    is the one kept, the reverse of the lookup by explicit names. *)
Theorem find_mmf_files_auto_detect (fs : filesystem) (directory : string)
  (names : list string) (column_names : option (list string))
  (Hlist : fs_listdir fs directory = Some names)
  (Hnone : column_names = None \/ column_names = Some []) :
  exists files,
    Parquet.find_mmf_files fs directory column_names = ([], Ok files)
    /\ (forall name,
          name ∈ names -> endswith name ".bt" = true ->
          exists name',
            Dict.get (Parquet.stem name ".bt") files
            = Some (os_path_join directory name')
            /\ name' ∈ names /\ endswith name' ".bt" = true
            /\ Parquet.stem name' ".bt" = Parquet.stem name ".bt")
    /\ (forall name,
          name ∈ names -> endswith name ".mmf" = true ->
          is_Some (Dict.get (Parquet.stem name ".mmf") files))
    /\ (forall k p,
          Dict.get k files = Some p ->
          exists name,
            name ∈ names /\ p = os_path_join directory name
            /\ ((endswith name ".bt" = true /\ k = Parquet.stem name ".bt")
                \/ (endswith name ".mmf" = true
                    /\ k = Parquet.stem name ".mmf"))).
Proof.
  assert (Hdir : is_dir fs directory = true).
  { unfold is_dir. apply bool_decide_eq_true_2. rewrite Hlist. eauto. }
  set (files := Parquet.detect_ext fs directory ".bt"
                  (Parquet.detect_ext fs directory ".mmf" [])).
  exists files. split.
  { unfold Parquet.find_mmf_files. rewrite Hdir. cbn [negb].
    destruct Hnone as [->| ->]; reflexivity. }
  assert (Hglob : forall ext name,
            name ∈ Parquet.glob fs directory ext
            <-> name ∈ names /\ endswith name ext = true).
  { intros ext name. rewrite glob_elem, Hlist. split.
    - intros (names' & [= <-] & ?). auto.
    - intros ?. eauto. }
  split; [|split].
  - intros name Hin Hext. subst files. unfold Parquet.detect_ext at 1.
    destruct (detect_names_get directory ".bt" (Parquet.glob fs directory ".bt")
                (Parquet.detect_ext fs directory ".mmf" [])
                (Parquet.stem name ".bt"))
      as [(name' & Hin' & Hst & Hget)|[Hno _]].
    + apply Hglob in Hin' as [? ?]. exists name'. auto.
    + exfalso. apply (Hno name); [now apply Hglob | reflexivity].
  - intros name Hin Hext. subst files. unfold Parquet.detect_ext at 1.
    destruct (detect_names_get directory ".bt" (Parquet.glob fs directory ".bt")
                (Parquet.detect_ext fs directory ".mmf" [])
                (Parquet.stem name ".mmf"))
      as [(name' & _ & _ & ->)|[_ ->]]; [eauto|].
    unfold Parquet.detect_ext.
    destruct (detect_names_get directory ".mmf"
                (Parquet.glob fs directory ".mmf") []
                (Parquet.stem name ".mmf"))
      as [(name' & _ & _ & ->)|[Hno _]]; [eauto|].
    exfalso. apply (Hno name); [now apply Hglob | reflexivity].
  - intros k p. subst files. unfold Parquet.detect_ext at 1.
    destruct (detect_names_get directory ".bt" (Parquet.glob fs directory ".bt")
                (Parquet.detect_ext fs directory ".mmf" []) k)
      as [(name' & Hin' & Hst & ->)|[_ ->]].
    + intros [= <-]. apply Hglob in Hin' as [? ?]. exists name'. auto.
    + unfold Parquet.detect_ext.
      destruct (detect_names_get directory ".mmf"
                  (Parquet.glob fs directory ".mmf") [] k)
        as [(name' & Hin' & Hst & ->)|[_ ->]]; [|discriminate].
      intros [= <-]. apply Hglob in Hin' as [? ?]. exists name'. auto.
Qed.

Lemma find_mmf_files_auto_detect_witness :
  exists files,
    Parquet.find_mmf_files sample_fs "d" None = ([], Ok files)
    /\ exists name',
         Dict.get "Time" files = Some (os_path_join "d" name')
         /\ endswith name' ".bt" = true.
Proof.
  destruct (find_mmf_files_auto_detect sample_fs "d"
              ["A.bt"; "B.bt"; "Time.mmf"; "Time.bt"]%string None
              eq_refl (or_introl eq_refl))
    as (files & Hfind & Hbt & _).
  exists files. split; [exact Hfind|].
  destruct (Hbt "Time.bt"%string) as (name' & Hget & _ & Hext & _).
  - repeat first [apply list_elem_of_here | apply list_elem_of_further].
  - reflexivity.
  - exists name'. split; [exact Hget | exact Hext].
Defined.

(** ** Merging columns, further *)

Lemma read_column_raises (fs : filesystem) (filepath column_name : string)
      (e : exn) :
  Parquet.read_column fs filepath column_name = Raise e ->
  exists msg, e = ListMmfReadError msg.
Proof.
  unfold Parquet.read_column.
  destruct (Reader.read_header fs filepath) as [h|e0] eqn:Hh.
  - destruct (Reader.read_mmf fs filepath _) as [data|e1] eqn:Hm;
      [discriminate|].
    intros [= <-]. exact (read_mmf_raises _ _ _ _ Hm).
  - intros [= <-]. exact (read_header_raises _ _ _ Hh).
Qed.

(** The reading loop up to its first failure. *)
Lemma read_columns_first_error (fs : filesystem)
      (pre post : list (string * string)) (col filepath msg : string)
      (columns : list (string * Parquet.Series)) (max_length : nat)
      (err : Parquet.stderr) :
  Forall (fun kv => exists series,
            Parquet.read_column fs (snd kv) (fst kv) = Ok series) pre ->
  Parquet.read_column fs filepath col = Raise (ListMmfReadError msg) ->
  Parquet.read_columns fs (pre ++ (col, filepath) :: post) columns max_length err
  = (err ++ ["ERROR reading " +:+ col +:+ ": " +:+ msg], Raise (SystemExit 1)).
Proof.
  intros Hpre Hfail. revert columns max_length.
  induction Hpre as [|[c p] pre [series Hs] _ IH]; intros columns max_length;
    cbn [app Parquet.read_columns].
  - now rewrite Hfail.
  - cbn [fst snd] in Hs. rewrite Hs. apply IH.
Qed.

(** A loop that ends well has written nothing and has read every file. *)
Lemma read_columns_ok (fs : filesystem) (files : list (string * string))
      (columns columns' : list (string * Parquet.Series))
      (max_length max_length' : nat) (err err' : Parquet.stderr) :
  Parquet.read_columns fs files columns max_length err
  = (err', Ok (columns', max_length')) ->
  err' = err
  /\ Forall (fun kv => exists series,
               Parquet.read_column fs (snd kv) (fst kv) = Ok series) files.
Proof.
  revert columns max_length.
  induction files as [|[c p] files IH]; intros columns max_length;
    cbn [Parquet.read_columns].
  - intros [= <- _ _]. split; [reflexivity | constructor].
  - destruct (Parquet.read_column fs p c) as [series|e] eqn:Hr.
    + intros H. destruct (IH _ _ H) as [-> Hall]. split; [reflexivity|].
      constructor; [cbn; eauto | exact Hall].
    + destruct e; discriminate.
Qed.

(** X19: [convert_to_parquet] ends in one of three ways.  Without
    files it raises [ValueError].  At the first column, in the order of
    the files, whose file cannot be read it stops: standard error holds
    the one line naming the column and the reader's message, the program
    exits with status 1, and no table is built.  Otherwise it returns a
    table. *)
Theorem convert_to_parquet_outcomes (fs : filesystem)
  (files : list (string * string)) :
  (files = [] ->
   Parquet.convert_to_parquet fs files
   = ([], Raise (ValueError "No files to convert")))
  /\ (forall pre col filepath post e,
        files = pre ++ (col, filepath) :: post ->
        Forall (fun kv => exists series,
                  Parquet.read_column fs (snd kv) (fst kv) = Ok series) pre ->
        Parquet.read_column fs filepath col = Raise e ->
        exists msg,
          e = ListMmfReadError msg
          /\ Parquet.convert_to_parquet fs files
             = (["ERROR reading " +:+ col +:+ ": " +:+ msg],
                Raise (SystemExit 1)))
  /\ (files <> [] ->
      Forall (fun kv => exists series,
                Parquet.read_column fs (snd kv) (fst kv) = Ok series) files ->
      exists err df, Parquet.convert_to_parquet fs files = (err, Ok df))
  /\ (forall err df,
        Parquet.convert_to_parquet fs files = (err, Ok df) ->
        files <> []
        /\ Forall (fun kv => exists series,
                     Parquet.read_column fs (snd kv) (fst kv) = Ok series)
                  files).
Proof.
  split; [intros ->; reflexivity|]. split; [|split].
  - intros pre col filepath post e -> Hpre Hfail.
    destruct (read_column_raises _ _ _ _ Hfail) as [msg ->].
    exists msg. split; [reflexivity|].
    unfold Parquet.convert_to_parquet.
    rewrite (read_columns_first_error fs pre post col filepath msg [] O []
               Hpre Hfail).
    destruct pre; reflexivity.
  - intros Hne Hall. unfold Parquet.convert_to_parquet.
    destruct files as [|f files']; [congruence|].
    assert (Hok : forall fl cols ml err,
              Forall (fun kv => exists series,
                        Parquet.read_column fs (snd kv) (fst kv) = Ok series) fl ->
              exists cols' ml',
                Parquet.read_columns fs fl cols ml err = (err, Ok (cols', ml'))).
    { clear. intros fl cols ml err Hall. revert cols ml.
      induction Hall as [|[c p] fl [series Hs] _ IH]; intros cols ml;
        cbn [Parquet.read_columns]; [eauto|].
      cbn [fst snd] in Hs. rewrite Hs. apply IH. }
    destruct (Hok (f :: files') [] O [] Hall) as (cols & ml & ->). eauto.
  - intros err df. unfold Parquet.convert_to_parquet.
    destruct files as [|f files']; [discriminate|].
    destruct (Parquet.read_columns fs (f :: files') [] O [])
      as [err0 [[cols ml]|e]] eqn:Hr; [|discriminate].
    intros _. split; [discriminate|].
    exact (proj2 (read_columns_ok _ _ _ _ _ _ _ _ Hr)).
Qed.

Lemma convert_to_parquet_outcomes_witness :
  Parquet.convert_to_parquet sample_fs
    [("A", "d/A.bt"); ("Open", "d/Open.bt"); ("B", "d/B.bt")]%string
  = (["ERROR reading Open: File not found: d/Open.bt"%string],
     Raise (SystemExit 1)).
Proof.
  destruct (proj1 (proj2 (convert_to_parquet_outcomes sample_fs
              [("A", "d/A.bt"); ("Open", "d/Open.bt"); ("B", "d/B.bt")]%string))
              [("A", "d/A.bt")]%string "Open"%string "d/Open.bt"%string
              [("B", "d/B.bt")]%string
              (ListMmfReadError "File not found: d/Open.bt")
              eq_refl)
    as (msg & Hmsg & Hconv).
  - apply List.Forall_cons; [eexists; reflexivity | apply List.Forall_nil].
  - reflexivity.
  - injection Hmsg as <-. exact Hconv.
Defined.

Lemma all_equal_one_distinct (l : list nat) (n : nat) :
  Forall (fun x => x = n) l -> (length (remove_dups l) <= 1)%nat.
Proof.
  intros Hall.
  assert (Hd : Forall (fun x => x = n) (remove_dups l)).
  { apply list.Forall_forall. intros x Hx. rewrite elem_of_remove_dups in Hx.
    exact (proj1 (list.Forall_forall _ _) Hall x Hx). }
  pose proof (NoDup_remove_dups l) as Hnd.
  destruct (remove_dups l) as [|a [|b r]]; cbn [length]; [lia|lia|].
  exfalso. apply NoDup_cons in Hnd as [Hnotin _].
  apply Hnotin. inversion Hd as [|? ? -> Hd']. inversion Hd' as [|? ? -> _].
  apply list_elem_of_here.
Qed.

Lemma max_len_all_equal (columns : list (string * Parquet.Series)) (n : nat) :
  columns <> [] ->
  Forall (fun kv => Parquet.series_len (snd kv) = n) columns ->
  Parquet.max_len columns = n.
Proof.
  intros Hne Hall. unfold Parquet.max_len.
  destruct Hall as [|[k s] columns Hs Hall]; [congruence|].
  cbn [map foldr snd] in *. rewrite Hs.
  clear Hne Hs. induction Hall as [|[k' s'] l Hs' _ IH]; cbn [map foldr snd] in *.
  - lia.
  - rewrite Hs'. lia.
Qed.

(** X20: when every column file is read and the columns all have one
    length, [convert_to_parquet] writes nothing to standard error and
    returns the table of the columns as read: their names in order, each
    with its own element type and exactly its own elements, none
    missing. *)
Theorem merge_equal_lengths (fs : filesystem)
  (files : list (string * string)) (err : Parquet.stderr)
  (columns : list (string * Parquet.Series)) (max_length n : nat)
  (Hfiles : files <> [])
  (Hread : Parquet.read_columns fs files [] O [] = (err, Ok (columns, max_length)))
  (Hequal : Forall (fun kv => Parquet.series_len (snd kv) = n) columns) :
  exists df,
    Parquet.convert_to_parquet fs files = ([], Ok df)
    /\ length df = length columns
    /\ forall i key s,
         columns !! i = Some (key, s) ->
         df !! i
         = Some {| Parquet.col_name := key;
                   Parquet.col_dtype := Reader.dtype (Parquet.data s);
                   Parquet.cells :=
                     map (Parquet.cell_of (Reader.dtype (Parquet.data s)))
                         (Reader.elems (Parquet.data s)) |}.
Proof.
  destruct (read_columns_ok _ _ _ _ _ _ _ _ Hread) as [-> _].
  exists (Parquet.pd_DataFrame columns).
  unfold Parquet.convert_to_parquet.
  destruct files as [|f files']; [congruence|]. rewrite Hread.
  assert (Hnodiff : Parquet.lengths_differ columns = false).
  { unfold Parquet.lengths_differ. apply Nat.ltb_ge.
    apply (all_equal_one_distinct _ n).
    clear -Hequal. induction Hequal; cbn [map]; constructor; auto. }
  rewrite Hnodiff. split; [reflexivity|]. split.
  { unfold Parquet.pd_DataFrame. apply length_map. }
  intros i key s Hi.
  assert (Hne : columns <> []) by (intros ->; discriminate).
  assert (Hs : Parquet.series_len s = n).
  { exact (proj1 (list.Forall_forall _ _) Hequal (key, s)
             (list_elem_of_lookup_2 _ _ _ Hi)). }
  unfold Parquet.pd_DataFrame. cbv zeta. rewrite lookup_map, Hi.
  cbn [fmap option_fmap option_map].
  rewrite (max_len_all_equal columns n Hne Hequal), Hs, Nat.eqb_refl.
  reflexivity.
Qed.

Lemma merge_equal_lengths_witness :
  exists df,
    Parquet.convert_to_parquet sample_fs
      [("A", "d/A.bt"); ("A2", "d/A.bt")]%string = ([], Ok df)
    /\ length df = 2%nat.
Proof.
  edestruct (merge_equal_lengths sample_fs
               [("A", "d/A.bt"); ("A2", "d/A.bt")]%string)
    as (df & Hconv & Hlen & _).
  - discriminate.
  - vm_compute. reflexivity.
  - repeat (apply List.Forall_cons; [reflexivity|]). apply List.Forall_nil.
  - exists df. split; [exact Hconv | exact Hlen].
Defined.

(** With distinct names, the loop appends one series per file, in the
    order of the files. *)
Lemma read_columns_appends (fs : filesystem) (files : list (string * string))
      (acc columns : list (string * Parquet.Series))
      (max_length max_length' : nat) (err err' : Parquet.stderr) :
  NoDup (Dict.keys files) ->
  (forall k, k ∈ Dict.keys files -> Dict.get k acc = None) ->
  Parquet.read_columns fs files acc max_length err
  = (err', Ok (columns, max_length')) ->
  exists news,
    columns = acc ++ news
    /\ Forall2 (fun kp ks => fst ks = fst kp
                             /\ Parquet.read_column fs (snd kp) (fst kp)
                                = Ok (snd ks))
               files news.
Proof.
  revert acc max_length.
  induction files as [|[c p] files IH]; intros acc max_length Hnd Hfresh;
    cbn [Parquet.read_columns].
  - intros [= _ <- _]. exists []. rewrite app_nil_r. split; [reflexivity|constructor].
  - cbn [Dict.keys map fst] in Hnd, Hfresh.
    apply NoDup_cons in Hnd as [Hnotin Hnd].
    destruct (Parquet.read_column fs p c) as [series|e] eqn:Hr;
      [|destruct e; discriminate].
    intros H.
    assert (Hc : Dict.get c acc = None) by (apply Hfresh, list_elem_of_here).
    rewrite (dict_set_fresh c series acc Hc) in H.
    assert (Hfresh' : forall k, k ∈ Dict.keys files ->
                                Dict.get k (acc ++ [(c, series)]) = None).
    { intros k Hk. apply dict_get_keys. unfold Dict.keys.
      rewrite map_app. cbn [map fst]. rewrite elem_of_app, list_elem_of_singleton.
      intros [Hin| ->].
      - assert (Hn : Dict.get k acc = None)
          by (apply Hfresh; now apply list_elem_of_further).
        now apply dict_get_keys in Hn.
      - contradiction. }
    destruct (IH _ _ Hnd Hfresh' H) as (news & -> & Hall).
    exists ((c, series) :: news). rewrite <- app_assoc. split; [reflexivity|].
    constructor; [split; [reflexivity | exact Hr] | exact Hall].
Qed.

(** X21: for files under distinct column names, the table
    [convert_to_parquet] returns has one column per file, in the order of
    the files and under the files' names, and the column of a file starts
    with the elements read from that file with [read_column] under that
    name. *)
Theorem table_columns_follow_files (fs : filesystem)
  (files : list (string * string)) (err : Parquet.stderr)
  (df : list Parquet.column)
  (Hnd : NoDup (Dict.keys files))
  (Hconv : Parquet.convert_to_parquet fs files = (err, Ok df)) :
  map Parquet.col_name df = Dict.keys files
  /\ forall i key filepath,
       files !! i = Some (key, filepath) ->
       exists series c,
         Parquet.read_column fs filepath key = Ok series
         /\ df !! i = Some c
         /\ Parquet.col_name c = key
         /\ (length (Reader.elems (Parquet.data series))
             <= length (Parquet.cells c))%nat
         /\ forall j v,
              Reader.elems (Parquet.data series) !! j = Some v ->
              Parquet.cells c !! j
              = Some (Parquet.cell_of (Reader.dtype (Parquet.data series)) v).
Proof.
  unfold Parquet.convert_to_parquet in Hconv.
  destruct files as [|f files'] eqn:Ef; [discriminate|]. rewrite <- Ef in *.
  destruct (Parquet.read_columns fs files [] O [])
    as [err0 [[columns ml]|e]] eqn:Hr; [|discriminate].
  injection Hconv as _ <-.
  destruct (read_columns_appends fs files [] columns O ml [] err0 Hnd
              (fun _ _ => eq_refl) Hr)
    as (news & -> & Hall).
  cbn [app] in *.
  assert (Hkeys : Dict.keys news = Dict.keys files).
  { clear -Hall. unfold Dict.keys.
    induction Hall as [|kp ks fl nl [Hk _] _ IH]; [reflexivity|].
    cbn [map]. now rewrite Hk, IH. }
  split; [now rewrite pd_DataFrame_names|].
  intros i key filepath Hi.
  destruct (Forall2_lookup_l _ _ _ _ _ Hall Hi) as ([k' series] & Hn & Hk & Hread).
  cbn [fst snd] in Hk, Hread. subst k'.
  destruct (pd_DataFrame_column news i key series Hn)
    as (c & Hc & Hname & Hlen & Hown & _).
  exists series, c. repeat (split; [assumption|]). split; [|exact Hown].
  rewrite Hlen. exact (series_len_le_max _ _ _ _ Hn).
Qed.

Lemma table_columns_follow_files_witness :
  exists df err,
    Parquet.convert_to_parquet sample_fs
      [("B", "d/B.bt"); ("Time", "d/Time.mmf")]%string = (err, Ok df)
    /\ map Parquet.col_name df = ["B"; "Time"]%string.
Proof.
  eexists. eexists. split; [vm_compute; reflexivity|].
  refine (proj1 (table_columns_follow_files sample_fs
                   [("B", "d/B.bt"); ("Time", "d/Time.mmf")]%string _ _ _ eq_refl)).
  repeat (apply NoDup_cons_2;
          [rewrite ?elem_of_cons, elem_of_nil; intuition discriminate|]).
  apply NoDup_nil_2.
Defined.
